(** * Review apps: the pull-request handler of [pr.go]

    A shallow embedding of [PRHandler.Handle], of the two pollers
    [waitForDeploymentTerminal] and [waitForAppLiveURL] and of
    [isInTerminalPhase], together with the properties of the handler that its
    specification states.

    The handler talks to two collaborators, the source-control platform
    (go-github) and the application platform (godo).  Every call to them, every
    [select] on the context and the ticker, and every log line is an [Event] of
    a transcript; the answers come from a [World], which may answer differently
    depending on the transcript so far.  Go errors are values, as in the source;
    a Go panic and a loop that never ends are outcomes of the monad [M]. *)

From Stdlib Require Import ZArith String List Lia Bool.
From Stdlib Require Import DecimalString DecimalZ.
From stdpp Require Import base tactics option list.

Local Open Scope string_scope.
Local Open Scope list_scope.

(** ** Constants of [pr.go] *)

Definition canonicalAppSpecLocation : string := ".do/app.yaml".

Definition actionOpened : string := "opened".
Definition actionReopened : string := "reopened".
Definition actionClosed : string := "closed".
Definition actionSynchronize : string := "synchronize".

Definition deploymentStateInactive : string := "inactive".
Definition deploymentStateSuccess : string := "success".
Definition deploymentStateError : string := "error".

(** ** Errors

    A Go [error] is either a value handed over by a collaborator (or by the
    context) or a wrapping made by [fmt.Errorf("<msg>: %w", err)]. *)

Inductive error : Type :=
| External (msg : string)
| Errorf (msg : string) (cause : error).

(** A Go pair [(value, err)] of which the code reads [value] only when [err]
    is nil. *)
Inductive result (A : Type) : Type :=
| Value (a : A)
| Failure (err : error).
Arguments Value {A} a.
Arguments Failure {A} err.

(** ** Data of the collaborators, as far as the handler reads or writes it *)

(** [deploymentPayload] of [pr.go]. *)
Record deploymentPayload : Type := mkPayload { AppID : string }.

(** The fields of [github.PullRequestEvent] the handler reads, each the value
    of the nil-safe getter chain the source uses: [GetAction], [GetNumber],
    [GetRepo().GetID()], [GetRepo().GetOwner().GetLogin()],
    [GetRepo().GetName()], [GetPullRequest().GetHead().GetRepo().GetID()],
    [GetPullRequest().GetHead().GetRef()] and the installation id. *)
Record PullRequestEvent : Type := mkEvent {
  Action : string;
  Number : Z;
  RepoID : Z;
  RepoOwner : string;
  RepoName : string;
  HeadRepoID : Z;
  HeadRef : string;
  InstallationID : Z
}.

(** [godo.GitHubSourceSpec]. *)
Record GitHubSourceSpec : Type := mkGitHub {
  Repo : string;
  Branch : string;
  DeployOnPush : bool
}.

(** A component of an app spec.  godo has one struct per kind of component;
    the handler reads only their [GitHub] pointer, so one record stands for
    all of them, with the remaining fields kept as [Rest]. *)
Record ComponentSpec : Type := mkComponent {
  GitHub : option GitHubSourceSpec;
  Rest : string
}.

(** [godo.AppSpec].  The component slices hold pointers: an element may be
    nil. *)
Record AppSpec : Type := mkAppSpec {
  Name : string;
  Services : list (option ComponentSpec);
  StaticSites : list (option ComponentSpec);
  Workers : list (option ComponentSpec);
  Jobs : list (option ComponentSpec);
  Functions : list (option ComponentSpec);
  Domains : list string;
  Alerts : list string
}.

(** Modelled from the spec: the phases of [godo.DeploymentPhase], a string
    type of the godo library, which is not part of the repository.  The spec
    lists pending, building and deploying phases and the four terminal ones;
    any string that is none of the named phases is a
    [DeploymentPhase_Other]. *)
Inductive DeploymentPhase : Type :=
| DeploymentPhase_Unknown
| DeploymentPhase_PendingBuild
| DeploymentPhase_Building
| DeploymentPhase_PendingDeploy
| DeploymentPhase_Deploying
| DeploymentPhase_Active
| DeploymentPhase_Superseded
| DeploymentPhase_Error
| DeploymentPhase_Canceled
| DeploymentPhase_Other (phase : string).

(** [godo.Deployment] and [godo.App]. *)
Record Deployment : Type := mkDeployment { DeploymentID : string; Phase : DeploymentPhase }.
Record App : Type := mkApp { ID : string; LiveURL : string }.

(** [github.Deployment]: its id and its raw JSON payload. *)
Record GhDeployment : Type := mkGhDeployment { GhID : Z; Payload : string }.

(** [github.DeploymentRequest]; the fields the handler leaves nil are left
    out. *)
Record DeploymentRequest : Type := mkDeploymentRequest {
  Ref : string;
  AutoMerge : bool;
  Environment : string;
  RequiredContexts : list string;
  RequestPayload : deploymentPayload
}.

(** [github.DeploymentStatusRequest]; [None] is a nil pointer. *)
Record DeploymentStatusRequest : Type := mkStatusRequest {
  State : option string;
  EnvironmentURL : option string;
  AutoInactive : option bool
}.

(** Nil-safe getters of godo and go-github. *)
Definition GetPhase (d : option Deployment) : DeploymentPhase :=
  match d with Some d => Phase d | None => DeploymentPhase_Unknown end.

Definition GetDeploymentID (d : option Deployment) : string :=
  match d with Some d => DeploymentID d | None => EmptyString end.

Definition GetLiveURL (a : option App) : string :=
  match a with Some a => LiveURL a | None => EmptyString end.

Definition GetID (a : option App) : string :=
  match a with Some a => ID a | None => EmptyString end.

Definition GetGhID (d : option GhDeployment) : Z :=
  match d with Some d => GhID d | None => 0%Z end.

Definition GetGitHub (c : option ComponentSpec) : option GitHubSourceSpec :=
  match c with Some c => GitHub c | None => None end.

(** ** The environment identity (line 70) *)

(** The verb [%d] of [fmt.Sprintf]: decimal digits, with a minus sign for a
    negative number. *)
Definition formatInt (n : Z) : string := NilZero.string_of_int (Z.to_int n).

(** [fmt.Sprintf("%s-%s-%d", repoOwner, repoName, prNum)]. *)
Definition appName (repoOwner repoName : string) (prNum : Z) : string :=
  repoOwner ++ "-" ++ repoName ++ "-" ++ formatInt prNum.

(** [fmt.Sprintf("%s/%s", repoOwner, repoName)]. *)
Definition repoFullName (repoOwner repoName : string) : string :=
  repoOwner ++ "/" ++ repoName.

(** ** The PR-scoped app spec (lines 190 to 224)

    The source first gathers pointers to the GitHub sources of the services,
    the workers and the jobs, then walks over that slice and updates the
    sources in place.  The spec was just decoded from YAML, so that no two
    components share a source: a pointer is modelled by the place of its
    component. *)

Inductive RefLoc : Type :=
| InServices (i : nat)
| InWorkers (i : nat)
| InJobs (i : nat).

(** One of the three gathering loops: the places, from index [i] on, of the
    components whose [GetGitHub()] is not nil. *)
Fixpoint gatherRefs (mk : nat -> RefLoc) (i : nat)
    (cs : list (option ComponentSpec)) : list RefLoc :=
  match cs with
  | [] => []
  | c :: cs' =>
      match GetGitHub c with
      | Some _ => mk i :: gatherRefs mk (S i) cs'
      | None => gatherRefs mk (S i) cs'
      end
  end.

Definition githubRefs (spec : AppSpec) : list RefLoc :=
  gatherRefs InServices 0 (Services spec)
  ++ gatherRefs InWorkers 0 (Workers spec)
  ++ gatherRefs InJobs 0 (Jobs spec).

(** The body of the last loop, on one source. *)
Definition pinRef (fullName prBranch : string) (ref : GitHubSourceSpec)
    : GitHubSourceSpec :=
  if negb (String.eqb (Repo ref) fullName) then ref
  else {| Repo := Repo ref; Branch := prBranch; DeployOnPush := false |}.

Definition pinComponent (fullName prBranch : string)
    (c : option ComponentSpec) : option ComponentSpec :=
  match c with
  | Some c => Some {| GitHub := pinRef fullName prBranch <$> GitHub c;
                      Rest := Rest c |}
  | None => None
  end.

(** The update through the pointer [ref]. *)
Definition pinAt (fullName prBranch : string) (spec : AppSpec) (ref : RefLoc)
    : AppSpec :=
  match ref with
  | InServices i =>
      {| Name := Name spec;
         Services := alter (pinComponent fullName prBranch) i (Services spec);
         StaticSites := StaticSites spec;
         Workers := Workers spec;
         Jobs := Jobs spec;
         Functions := Functions spec;
         Domains := Domains spec;
         Alerts := Alerts spec |}
  | InWorkers i =>
      {| Name := Name spec;
         Services := Services spec;
         StaticSites := StaticSites spec;
         Workers := alter (pinComponent fullName prBranch) i (Workers spec);
         Jobs := Jobs spec;
         Functions := Functions spec;
         Domains := Domains spec;
         Alerts := Alerts spec |}
  | InJobs i =>
      {| Name := Name spec;
         Services := Services spec;
         StaticSites := StaticSites spec;
         Workers := Workers spec;
         Jobs := alter (pinComponent fullName prBranch) i (Jobs spec);
         Functions := Functions spec;
         Domains := Domains spec;
         Alerts := Alerts spec |}
  end.

(** Lines 190 to 224: the name, the domains and the alerts are overwritten,
    then the gathered sources are walked over. *)
Definition prScopedSpec (repoOwner repoName prBranch name : string)
    (spec : AppSpec) : AppSpec :=
  let spec1 :=
    {| Name := name;
       Services := Services spec;
       StaticSites := StaticSites spec;
       Workers := Workers spec;
       Jobs := Jobs spec;
       Functions := Functions spec;
       Domains := [];
       Alerts := [] |} in
  fold_left (pinAt (repoFullName repoOwner repoName) prBranch)
            (githubRefs spec1) spec1.

(** What the spec asks of one slice of components, [before] and [after] the
    transformation: the slice keeps its length and its components; a source
    of the PR's repository, [fullName], has its branch set to [prBranch] and
    its auto-deploy flag cleared; any other source is as it was. *)
Definition scopedTo (fullName prBranch : string)
    (before after : list (option ComponentSpec)) : Prop :=
  length after = length before /\
  forall i c, before !! i = Some c ->
    exists c', after !! i = Some c' /\
      match c, c' with
      | None, None => True
      | Some c, Some c' =>
          Rest c' = Rest c /\
          match GitHub c with
          | None => GitHub c' = None
          | Some ref =>
              (Repo ref = fullName ->
               GitHub c' = Some {| Repo := Repo ref; Branch := prBranch;
                                   DeployOnPush := false |}) /\
              (Repo ref <> fullName -> GitHub c' = Some ref)
          end
      | _, _ => False
      end.

(** ** Transcripts and worlds *)

(** [github.RepositoryContent], as returned by [GetContents]: the encoding
    and the encoded content. *)
Record RepositoryContent : Type := mkContent {
  Encoding : string;
  Content : string
}.

(** What the handler does to the outside, with the answer it got.  A pointer
    in an answer may be nil ([None]); a lone [option error] is the [err] of a
    call whose other results the handler drops. *)
Inductive Event : Type :=
| NewInstallationClient (installationID : Z) (err : option error)
| GhListDeployments (owner repo environment : string)
    (r : result (list (option GhDeployment)))
| GhCreateDeployment (owner repo : string) (req : DeploymentRequest)
    (r : result (option GhDeployment))
| GhCreateDeploymentStatus (owner repo : string) (deployment : Z)
    (req : DeploymentStatusRequest) (err : option error)
| GhGetContents (owner repo path ref : string)
    (r : result (option RepositoryContent))
| DoAppsCreate (spec : AppSpec) (r : result (option App))
| DoAppsDelete (appID : string) (err : option error)
| DoAppsCreateDeployment (appID : string) (r : result (option Deployment))
| DoAppsListDeployments (appID : string)
    (r : result (list (option Deployment)))
| DoAppsGetDeployment (appID deploymentID : string)
    (r : result (option Deployment))
| DoAppsGet (appID : string) (r : result (option App))
| Select (done : option error)
| Log (level msg : string).

Definition Trace : Type := list Event.

(** The collaborators.  Each field answers one operation, given the
    transcript of the run so far.  [ctxDone] decides a [select] between
    [ctx.Done()] and the ticker: [Some e] when the context is done, [e] being
    [ctx.Err()], and [None] when the ticker fires. *)
Record World : Type := mkWorld {
  newInstallationClient : Trace -> Z -> option error;
  ghListDeployments :
    Trace -> string -> string -> string -> result (list (option GhDeployment));
  ghCreateDeployment :
    Trace -> string -> string -> DeploymentRequest -> result (option GhDeployment);
  ghCreateDeploymentStatus :
    Trace -> string -> string -> Z -> DeploymentStatusRequest -> option error;
  ghGetContents :
    Trace -> string -> string -> string -> string ->
    result (option RepositoryContent);
  doAppsCreate : Trace -> AppSpec -> result (option App);
  doAppsDelete : Trace -> string -> option error;
  doAppsCreateDeployment : Trace -> string -> result (option Deployment);
  doAppsListDeployments : Trace -> string -> result (list (option Deployment));
  doAppsGetDeployment : Trace -> string -> string -> result (option Deployment);
  doAppsGet : Trace -> string -> result (option App);
  ctxDone : Trace -> option error
}.

(** The decoders of the libraries the handler calls: [json.Unmarshal] into a
    [github.PullRequestEvent] and into a [deploymentPayload],
    [RepositoryContent.GetContent] and [yaml.Unmarshal] into a
    [godo.AppSpec]. *)
Record Decoders : Type := mkDecoders {
  unmarshalEvent : string -> result PullRequestEvent;
  unmarshalPayload : string -> result deploymentPayload;
  GetContent : RepositoryContent -> result string;
  unmarshalSpec : string -> result AppSpec
}.

(** ** The monad of the handler *)

(** How a Go function call ends: it returns, it panics, or the model runs
    out of fuel inside a loop. *)
Inductive Outcome (A : Type) : Type :=
| Returned (a : A)
| Panicked
| OutOfFuel.
Arguments Returned {A} a.
Arguments Panicked {A}.
Arguments OutOfFuel {A}.

Definition M (A : Type) : Type := Trace -> Outcome A * Trace.

Definition ret {A} (a : A) : M A := fun t => (Returned a, t).

Definition bind {A B} (m : M A) (k : A -> M B) : M B :=
  fun t =>
    match m t with
    | (Returned a, t') => k a t'
    | (Panicked, t') => (Panicked, t')
    | (OutOfFuel, t') => (OutOfFuel, t')
    end.

Definition panic {A} : M A := fun t => (Panicked, t).
Definition outOfFuel {A} : M A := fun t => (OutOfFuel, t).

(** An operation of a collaborator: ask the world, write the event down. *)
Definition call {A} (ask : Trace -> A) (ev : A -> Event) : M A :=
  fun t => let r := ask t in (Returned r, t ++ [ev r]).

Definition log (level msg : string) : M unit :=
  fun t => (Returned tt, t ++ [Log level msg]).

Notation "'let*' x ':=' m 'in' k" := (bind m (fun x => k))
  (at level 10, x pattern, m at level 100, k at level 200).
Notation "m ';;' k" := (bind m (fun _ => k))
  (at level 100, k at level 200, right associativity).

(** ** [isInTerminalPhase] *)

Definition isInTerminalPhase (d : option Deployment) : bool :=
  match GetPhase d with
  | DeploymentPhase_Active
  | DeploymentPhase_Error
  | DeploymentPhase_Canceled
  | DeploymentPhase_Superseded => true
  | _ => false
  end.

Definition isActive (p : DeploymentPhase) : bool :=
  match p with DeploymentPhase_Active => true | _ => false end.

Section Handler.

Variable W : World.
Variable D : Decoders.

(** ** The pollers *)

(** The loop of [waitForDeploymentTerminal], entered with [d]; [fuel] bounds
    the number of rounds. *)
Fixpoint waitForDeploymentTerminalFrom (fuel : nat) (appID deploymentID : string)
    (d : option Deployment) : M (result (option Deployment)) :=
  if isInTerminalPhase d then ret (Value d)
  else
    match fuel with
    | O => outOfFuel
    | S fuel' =>
        let* r := call (fun t => doAppsGetDeployment W t appID deploymentID)
                       (DoAppsGetDeployment appID deploymentID) in
        match r with
        | Failure err => ret (Failure (Errorf "failed to get deployment" err))
        | Value d' =>
            let* done := call (ctxDone W) Select in
            match done with
            | Some ctxErr => ret (Failure ctxErr)
            | None => waitForDeploymentTerminalFrom fuel' appID deploymentID d'
            end
        end
    end.

Definition waitForDeploymentTerminal (fuel : nat) (appID deploymentID : string)
    : M (result (option Deployment)) :=
  waitForDeploymentTerminalFrom fuel appID deploymentID None.

(** The loop of [waitForAppLiveURL], entered with [a]. *)
Fixpoint waitForAppLiveURLFrom (fuel : nat) (appID : string) (a : option App)
    : M (result (option App)) :=
  if negb (String.eqb (GetLiveURL a) EmptyString) then ret (Value a)
  else
    match fuel with
    | O => outOfFuel
    | S fuel' =>
        let* r := call (fun t => doAppsGet W t appID) (DoAppsGet appID) in
        match r with
        | Failure err => ret (Failure (Errorf "failed to get deployment" err))
        | Value a' =>
            let* done := call (ctxDone W) Select in
            match done with
            | Some ctxErr => ret (Failure ctxErr)
            | None => waitForAppLiveURLFrom fuel' appID a'
            end
        end
    end.

Definition waitForAppLiveURL (fuel : nat) (appID : string)
    : M (result (option App)) :=
  waitForAppLiveURLFrom fuel appID None.

(** ** [Handle] *)

(** The closure [waitAndPropagate] of [Handle]; it captures the repository
    and the two clients. *)
Definition waitAndPropagate (fuel : nat) (repoOwner repoName : string)
    (appID deploymentID : string) (ghDeploymentID : Z) : M (option error) :=
  let* r := waitForDeploymentTerminal fuel appID deploymentID in
  match r with
  | Failure err => ret (Some (Errorf "failed to wait deployment to finish" err))
  | Value d =>
      match d with
      | None => panic
      | Some d =>
          if negb (isActive (Phase d)) then
            let req := {| State := Some deploymentStateError;
                          EnvironmentURL := None;
                          AutoInactive := Some true |} in
            let* err := call (fun t => ghCreateDeploymentStatus W t repoOwner
                                         repoName ghDeploymentID req)
                             (GhCreateDeploymentStatus repoOwner repoName
                                ghDeploymentID req) in
            match err with
            | Some err =>
                ret (Some (Errorf "failed to update deployment with failure" err))
            | None => ret None
            end
          else
            let* r := waitForAppLiveURL fuel appID in
            match r with
            | Failure err =>
                ret (Some (Errorf "failed to wait for app to have a live URL" err))
            | Value app =>
                match app with
                | None => panic
                | Some app =>
                    let req := {| State := Some deploymentStateSuccess;
                                  EnvironmentURL := Some (LiveURL app);
                                  AutoInactive := Some true |} in
                    let* err := call (fun t => ghCreateDeploymentStatus W t
                                         repoOwner repoName ghDeploymentID req)
                                     (GhCreateDeploymentStatus repoOwner repoName
                                        ghDeploymentID req) in
                    match err with
                    | Some err => ret (Some (Errorf "failed to update deployment" err))
                    | None => ret None
                    end
                end
            end
      end
  end.

(** The [switch] on the action at the head of [Handle]. *)
Definition isHandledAction (action : string) : bool :=
  String.eqb action actionOpened || String.eqb action actionReopened
  || String.eqb action actionClosed || String.eqb action actionSynchronize.

Definition Handle (fuel : nat) (payload : string) : M (option error) :=
  match unmarshalEvent D payload with
  | Failure err => ret (Some (Errorf "failed to parse pull request event" err))
  | Value event =>
  if negb (isHandledAction (Action event)) then ret None
  else
  let prNum := Number event in
  if negb (Z.eqb (RepoID event) (HeadRepoID event)) then
    log "warn" "pull requests of forked repositories are not allowed";;
    ret None
  else
  let repoOwner := RepoOwner event in
  let repoName := RepoName event in
  let prBranch := HeadRef event in
  let appName := appName repoOwner repoName prNum in
  let* err := call (fun t => newInstallationClient W t (InstallationID event))
                   (NewInstallationClient (InstallationID event)) in
  match err with
  | Some err => ret (Some (Errorf "failed to create installation client" err))
  | None =>
  if String.eqb (Action event) actionClosed
     || String.eqb (Action event) actionSynchronize then
    let* r := call (fun t => ghListDeployments W t repoOwner repoName appName)
                   (GhListDeployments repoOwner repoName appName) in
    match r with
    | Failure err => ret (Some (Errorf "failed to list deployments" err))
    | Value deployments =>
    match deployments with
    | [] => ret None
    | deployment :: _ =>
    match deployment with
    | None => panic
    | Some deployment0 =>
    match unmarshalPayload D (Payload deployment0) with
    | Failure err => ret (Some (Errorf "failed to parse deployment payload" err))
    | Value payload =>
    if String.eqb (Action event) actionClosed then
      log "info" "deleting app as the PR was closed";;
      let* err := call (fun t => doAppsDelete W t (AppID payload))
                       (DoAppsDelete (AppID payload)) in
      match err with
      | Some err => ret (Some (Errorf "failed to delete app" err))
      | None =>
          let req := {| State := Some deploymentStateInactive;
                        EnvironmentURL := None;
                        AutoInactive := Some true |} in
          let* err := call (fun t => ghCreateDeploymentStatus W t repoOwner
                                       repoName (GetGhID deployment) req)
                           (GhCreateDeploymentStatus repoOwner repoName
                              (GetGhID deployment) req) in
          match err with
          | Some err => ret (Some (Errorf "failed to update deployment" err))
          | None => ret None
          end
      end
    else if String.eqb (Action event) actionSynchronize then
      log "info" "redeploying app after change";;
      let* r := call (fun t => doAppsCreateDeployment W t (AppID payload))
                     (DoAppsCreateDeployment (AppID payload)) in
      match r with
      | Failure err => ret (Some (Errorf "failed to create deployment" err))
      | Value d =>
          let req := {| Ref := prBranch;
                        AutoMerge := false;
                        Environment := appName;
                        RequiredContexts := [];
                        RequestPayload := {| AppID := AppID payload |} |} in
          let* r := call (fun t => ghCreateDeployment W t repoOwner repoName req)
                         (GhCreateDeployment repoOwner repoName req) in
          match r with
          | Failure err => ret (Some (Errorf "failed to create deployment" err))
          | Value ghDeployment =>
              let* err := waitAndPropagate fuel repoOwner repoName
                            (AppID payload) (GetDeploymentID d)
                            (GetGhID ghDeployment) in
              match err with
              | Some err =>
                  ret (Some (Errorf "failed to propagate deployment status" err))
              | None => ret None
              end
          end
      end
    else ret None
    end end end end
  else
    let* r := call (fun t => ghGetContents W t repoOwner repoName
                               canonicalAppSpecLocation prBranch)
                   (GhGetContents repoOwner repoName canonicalAppSpecLocation
                      prBranch) in
    match r with
    | Failure err => ret (Some (Errorf "failed to fetch app spec" err))
    | Value appSpecFile =>
    match appSpecFile with
    | None => panic
    | Some appSpecFile =>
    match GetContent D appSpecFile with
    | Failure err => ret (Some (Errorf "failed to get app spec content" err))
    | Value appSpec =>
    match unmarshalSpec D appSpec with
    | Failure err => ret (Some (Errorf "failed to parse app spec" err))
    | Value spec =>
    let spec := prScopedSpec repoOwner repoName prBranch appName spec in
    log "info" "creating new app";;
    let* r := call (fun t => doAppsCreate W t spec) (DoAppsCreate spec) in
    match r with
    | Failure err => ret (Some (Errorf "failed to create app" err))
    | Value app =>
    match app with
    | None => panic
    | Some app0 =>
    let req := {| Ref := prBranch;
                  AutoMerge := false;
                  Environment := appName;
                  RequiredContexts := [];
                  RequestPayload := {| AppID := ID app0 |} |} in
    let* r := call (fun t => ghCreateDeployment W t repoOwner repoName req)
                   (GhCreateDeployment repoOwner repoName req) in
    match r with
    | Failure err => ret (Some (Errorf "failed to create deployment" err))
    | Value ghDeployment =>
    let* r := call (fun t => doAppsListDeployments W t (GetID app))
                   (DoAppsListDeployments (GetID app)) in
    match r with
    | Failure err => ret (Some (Errorf "failed to list deployments" err))
    | Value ds =>
    match ds with
    | [] => panic
    | d0 :: _ =>
        let* err := waitAndPropagate fuel repoOwner repoName (GetID app)
                      (GetDeploymentID d0) (GetGhID ghDeployment) in
        match err with
        | Some err =>
            ret (Some (Errorf "failed to propagate deployment status" err))
        | None => ret None
        end
    end end end end end end end end end
  end end.

End Handler.

(** ** Reading a transcript *)

(** The apps the handler asked the platform to create, with the answers. *)
Fixpoint appsCreated (t : Trace) : list (AppSpec * result (option App)) :=
  match t with
  | [] => []
  | DoAppsCreate spec r :: t' => (spec, r) :: appsCreated t'
  | _ :: t' => appsCreated t'
  end.

(** The apps for which the handler asked the platform for a new deployment. *)
Fixpoint deploymentsTriggered (t : Trace) : list string :=
  match t with
  | [] => []
  | DoAppsCreateDeployment appID _ :: t' => appID :: deploymentsTriggered t'
  | _ :: t' => deploymentsTriggered t'
  end.

(** The deployment records the handler asked the source-control platform to
    create. *)
Fixpoint recordsCreated (t : Trace)
    : list (DeploymentRequest * result (option GhDeployment)) :=
  match t with
  | [] => []
  | GhCreateDeployment _ _ req r :: t' => (req, r) :: recordsCreated t'
  | _ :: t' => recordsCreated t'
  end.

(** The status updates the handler sent, each with the record it is for. *)
Fixpoint statusUpdates (t : Trace) : list (Z * DeploymentStatusRequest) :=
  match t with
  | [] => []
  | GhCreateDeploymentStatus _ _ id req _ :: t' => (id, req) :: statusUpdates t'
  | _ :: t' => statusUpdates t'
  end.

(** Everything but the log lines: the calls that leave the process and the
    waits on the context. *)
Definition isExternal (e : Event) : bool :=
  match e with Log _ _ => false | _ => true end.

Definition externalCalls (t : Trace) : Trace := List.filter isExternal t.

(** The events of [waitAndPropagate]. *)
Definition isWaitEvent (e : Event) : bool :=
  match e with
  | DoAppsGetDeployment _ _ _ | DoAppsGet _ _ | Select _
  | GhCreateDeploymentStatus _ _ _ _ _ => true
  | _ => false
  end.

(** ** The shape of a poll

    Both pollers run the same loop: fetch, leave on a failed fetch, wait
    for the ticker or the context, leave when the context is done, test the
    fetched state.  [pollRun] tells the transcripts of that loop from its
    outcomes, for a loop entered with a state that does not satisfy the test:
    [fetched] makes the event of a fetch, [satisfied] is the test and [wrap]
    what is returned for a failed fetch. *)
Section PollRuns.

Context {St : Type}.
Variable fetched : result (option St) -> Event.
Variable satisfied : option St -> bool.
Variable wrap : error -> error.

Inductive pollRun : Trace -> Outcome (result (option St)) -> Prop :=
| poll_fetch_failed err :
    pollRun [fetched (Failure err)] (Returned (Failure (wrap err)))
| poll_context_done s ctxErr :
    pollRun [fetched (Value s); Select (Some ctxErr)] (Returned (Failure ctxErr))
| poll_satisfied s :
    satisfied s = true ->
    pollRun [fetched (Value s); Select None] (Returned (Value s))
| poll_again s tp out :
    satisfied s = false ->
    pollRun tp out ->
    pollRun (fetched (Value s) :: Select None :: tp) out
| poll_out_of_fuel :
    pollRun [] OutOfFuel.

End PollRuns.

(** ** The shape of [waitAndPropagate]

    The transcripts and outcomes of the closure, for the repository
    [owner]/[repo], the app [appID], its deployment [deploymentID] and the
    record [ghDeploymentID]: the poll for a terminal phase, then either the
    report of a failure or the poll for the live URL and the report of the
    success. *)
Section PropagateRuns.

Variables owner repo appID deploymentID : string.
Variable ghDeploymentID : Z.

Definition deploymentPoll : Trace -> Outcome (result (option Deployment)) -> Prop :=
  pollRun (DoAppsGetDeployment appID deploymentID) isInTerminalPhase
    (Errorf "failed to get deployment").

Definition liveURLPoll : Trace -> Outcome (result (option App)) -> Prop :=
  pollRun (DoAppsGet appID)
    (fun a => negb (String.eqb (GetLiveURL a) EmptyString))
    (Errorf "failed to get deployment").

Definition statusReport (req : DeploymentStatusRequest) (err : option error)
    : Event :=
  GhCreateDeploymentStatus owner repo ghDeploymentID req err.

Inductive propagateRun : Trace -> Outcome (option error) -> Prop :=
| propagate_wait_failed tp err :
    deploymentPoll tp (Returned (Failure err)) ->
    propagateRun tp
      (Returned (Some (Errorf "failed to wait deployment to finish" err)))
| propagate_wait_out_of_fuel tp :
    deploymentPoll tp OutOfFuel ->
    propagateRun tp OutOfFuel
| propagate_unsuccessful tp d err :
    deploymentPoll tp (Returned (Value (Some d))) ->
    isActive (Phase d) = false ->
    propagateRun
      (tp ++ [statusReport {| State := Some deploymentStateError;
                              EnvironmentURL := None;
                              AutoInactive := Some true |} err])
      (Returned
         match err with
         | Some err => Some (Errorf "failed to update deployment with failure" err)
         | None => None
         end)
| propagate_url_failed tp d tq err :
    deploymentPoll tp (Returned (Value (Some d))) ->
    isActive (Phase d) = true ->
    liveURLPoll tq (Returned (Failure err)) ->
    propagateRun (tp ++ tq)
      (Returned (Some (Errorf "failed to wait for app to have a live URL" err)))
| propagate_url_out_of_fuel tp d tq :
    deploymentPoll tp (Returned (Value (Some d))) ->
    isActive (Phase d) = true ->
    liveURLPoll tq OutOfFuel ->
    propagateRun (tp ++ tq) OutOfFuel
| propagate_success tp d tq app err :
    deploymentPoll tp (Returned (Value (Some d))) ->
    isActive (Phase d) = true ->
    liveURLPoll tq (Returned (Value (Some app))) ->
    propagateRun
      (tp ++ tq ++ [statusReport {| State := Some deploymentStateSuccess;
                                    EnvironmentURL := Some (LiveURL app);
                                    AutoInactive := Some true |} err])
      (Returned
         match err with
         | Some err => Some (Errorf "failed to update deployment" err)
         | None => None
         end).

End PropagateRuns.

(** ** Concrete runs

    A pull request of the repository [acme/widgets], an app spec with one
    service built from that repository and one worker built from another
    one, and worlds in which every call succeeds unless a parameter says
    otherwise. *)

Definition exampleEvent (action : string) (headRepoID : Z) : PullRequestEvent :=
  {| Action := action;
     Number := 42;
     RepoID := 1001;
     RepoOwner := "acme";
     RepoName := "widgets";
     HeadRepoID := headRepoID;
     HeadRef := "feature";
     InstallationID := 5 |}.

Definition exampleSpec : AppSpec :=
  {| Name := "widgets";
     Services :=
       [Some {| GitHub := Some {| Repo := "acme/widgets"; Branch := "main";
                                  DeployOnPush := true |};
                Rest := "web" |}];
     StaticSites := [];
     Workers :=
       [Some {| GitHub := Some {| Repo := "acme/tools"; Branch := "main";
                                  DeployOnPush := true |};
                Rest := "cron" |};
        None];
     Jobs := [Some {| GitHub := None; Rest := "migrate" |}];
     Functions := [];
     Domains := ["widgets.example.com"];
     Alerts := ["DEPLOYMENT_FAILED"] |}.

Definition exampleDecoders (event : PullRequestEvent) : Decoders :=
  {| unmarshalEvent := fun _ => Value event;
     unmarshalPayload := fun raw => Value {| AppID := raw |};
     GetContent := fun file => Value (Content file);
     unmarshalSpec := fun _ => Value exampleSpec |}.

(** [records] is what the source-control platform lists, [phase] the phase
    every fetched deployment is in, [statusErr] the answer to a status
    update, [initial] the deployments the platform lists for a new app, and
    [done] the fate of each [select]. *)
Definition exampleWorld (records : list (option GhDeployment))
    (phase : DeploymentPhase) (statusErr : option error)
    (initial : list (option Deployment)) (done : Trace -> option error)
    : World :=
  {| newInstallationClient := fun _ _ => None;
     ghListDeployments := fun _ _ _ _ => Value records;
     ghCreateDeployment := fun _ _ _ _ =>
       Value (Some {| GhID := 7; Payload := "app-1" |});
     ghCreateDeploymentStatus := fun _ _ _ _ _ => statusErr;
     ghGetContents := fun _ _ _ _ _ =>
       Value (Some {| Encoding := "base64"; Content := "spec" |});
     doAppsCreate := fun _ _ =>
       Value (Some {| ID := "app-1"; LiveURL := EmptyString |});
     doAppsDelete := fun _ _ => None;
     doAppsCreateDeployment := fun _ _ =>
       Value (Some {| DeploymentID := "dep-2";
                      Phase := DeploymentPhase_PendingBuild |});
     doAppsListDeployments := fun _ _ => Value initial;
     doAppsGetDeployment := fun _ _ deploymentID =>
       Value (Some {| DeploymentID := deploymentID; Phase := phase |});
     doAppsGet := fun _ appID =>
       Value (Some {| ID := appID; LiveURL := "https://pr-42.example.app" |});
     ctxDone := done |}.

Definition exampleRecord : option GhDeployment :=
  Some {| GhID := 3; Payload := "app-1" |}.

(** A deployment record whose payload is not the JSON of a
    [deploymentPayload], and decoders that say so: [json.Unmarshal] fails on
    a payload that does not start with an opening brace. *)
Definition foreignRecord : option GhDeployment :=
  Some {| GhID := 4; Payload := "app-1" |}.

Definition jsonDecoders (event : PullRequestEvent) : Decoders :=
  {| unmarshalEvent := fun _ => Value event;
     unmarshalPayload := fun raw =>
       if String.prefix "{" raw then Value {| AppID := raw |}
       else Failure (External "invalid character");
     GetContent := fun file => Value (Content file);
     unmarshalSpec := fun _ => Value exampleSpec |}.

Definition exampleInitial : list (option Deployment) :=
  [Some {| DeploymentID := "dep-1"; Phase := DeploymentPhase_PendingBuild |}].

Definition neverDone : Trace -> option error := fun _ => None.
Definition alwaysDone : Trace -> option error :=
  fun _ => Some (External "context canceled").

(** * Properties *)

(** ** The environment identity *)

Lemma append_cancel_l (s a b : string) : (s ++ a = s ++ b)%string -> a = b.
Proof.
  induction s as [|c s IH]; simpl; intros H; [exact H|].
  injection H as H. exact (IH H).
Qed.

Lemma to_int_printable (n : Z) :
  Z.to_int n <> Decimal.Pos Decimal.Nil /\ Z.to_int n <> Decimal.Neg Decimal.Nil.
Proof.
  destruct n as [|p|p]; simpl; split; try discriminate;
    intros H; injection H as H; exact (DecimalPos.Unsigned.to_uint_nonnil p H).
Qed.

Lemma formatInt_inj (n m : Z) : formatInt n = formatInt m -> n = m.
Proof.
  unfold formatInt. intros H.
  destruct (to_int_printable n) as [Hn1 Hn2].
  destruct (to_int_printable m) as [Hm1 Hm2].
  apply to_int_inj.
  pose proof (NilZero.isi _ Hn1 Hn2) as En.
  pose proof (NilZero.isi _ Hm1 Hm2) as Em.
  rewrite H in En. rewrite Em in En. congruence.
Qed.

(** C2, as the code has it: the identity is a function of the owner, the
    repository and the PR number, so that equal triples give equal identities,
    and two PRs of one repository have the same identity only if they have
    the same number.  Triples that differ in the owner or in the repository
    name are not covered. *)
Theorem appName_deterministic_and_separates_numbers :
  (forall owner1 repo1 n1 owner2 repo2 n2,
      (owner1, repo1, n1) = (owner2, repo2, n2) ->
      appName owner1 repo1 n1 = appName owner2 repo2 n2) /\
  (forall owner repo n1 n2,
      n1 <> n2 -> appName owner repo n1 <> appName owner repo n2).
Proof.
  split.
  - intros o1 r1 n1 o2 r2 n2 H. injection H as -> -> ->. reflexivity.
  - intros owner repo n1 n2 Hne H. apply Hne. unfold appName in H.
    apply append_cancel_l in H. apply (append_cancel_l "-") in H.
    apply append_cancel_l in H. apply (append_cancel_l "-") in H.
    now apply formatInt_inj.
Qed.

(** C2 as stated fails: two distinct pull requests with the same identity.
    The hyphen that separates the parts may also occur inside them. *)
Lemma appName_collision :
  ("acme-labs", "api", 7%Z) <> ("acme", "labs-api", 7%Z) /\
  appName "acme-labs" "api" 7 = appName "acme" "labs-api" 7.
Proof. split; [discriminate | reflexivity]. Qed.

(** ** The PR-scoped app spec *)

#[local] Instance RefLoc_eq_dec : EqDecision RefLoc.
Proof. solve_decision. Defined.

Lemma pinRef_idemp fullName prBranch ref :
  pinRef fullName prBranch (pinRef fullName prBranch ref)
  = pinRef fullName prBranch ref.
Proof.
  unfold pinRef. destruct (String.eqb (Repo ref) fullName) eqn:E; simpl.
  - rewrite E. reflexivity.
  - rewrite E. reflexivity.
Qed.

Lemma pinComponent_idemp fullName prBranch c :
  pinComponent fullName prBranch (pinComponent fullName prBranch c)
  = pinComponent fullName prBranch c.
Proof.
  destruct c as [[[g|] rest]|]; simpl; try reflexivity.
  now rewrite pinRef_idemp.
Qed.

Lemma pinComponent_no_source fullName prBranch c :
  GetGitHub c = None -> pinComponent fullName prBranch c = c.
Proof. destruct c as [[[g|] rest]|]; simpl; intros H; congruence. Qed.

(** A component with a source is gathered, at its place. *)
Lemma gatherRefs_complete mk i cs k c g :
  cs !! k = Some c -> GetGitHub c = Some g ->
  mk (i + k) ∈ gatherRefs mk i cs.
Proof.
  revert i k. induction cs as [|c0 cs IH]; intros i k Hk Hg; [done|].
  destruct k as [|k]; simpl in *.
  - injection Hk as ->. rewrite Hg, Nat.add_0_r. left.
  - specialize (IH (S i) k Hk Hg).
    replace (i + S k) with (S i + k) by lia.
    destruct (GetGitHub c0); [right|]; exact IH.
Qed.

Section Walk.

Variables fullName prBranch : string.

Let pin := pinComponent fullName prBranch.
Let walk := fold_left (pinAt fullName prBranch).

Lemma walk_untouched refs spec :
  Name (walk refs spec) = Name spec /\
  StaticSites (walk refs spec) = StaticSites spec /\
  Functions (walk refs spec) = Functions spec /\
  Domains (walk refs spec) = Domains spec /\
  Alerts (walk refs spec) = Alerts spec.
Proof.
  revert spec. induction refs as [|r refs IH]; intros spec; [done|].
  subst walk. simpl. destruct (IH (pinAt fullName prBranch spec r)) as (->&->&->&->&->).
  destruct r; done.
Qed.

(** The walk changes a slice of components at the gathered places only. *)
Ltac absurd_membership :=
  exfalso;
  repeat match goal with
         | H : context [_ ∈ _ :: _] |- _ => rewrite elem_of_cons in H
         end;
  intuition congruence.

Ltac walk_lookup IH :=
  cbn [fold_left]; rewrite IH;
  match goal with
  | |- context [pinAt _ _ _ ?r] =>
      destruct r as [j|j|j]; cbn [pinAt Services Workers Jobs]
  end;
  try (repeat case_decide; try done; absurd_membership);
  match goal with
  | i : nat |- context [alter _ ?j _ !! ?i] =>
      destruct (decide (j = i)) as [->|Hne];
      [ rewrite list_lookup_alter_eq;
        repeat case_decide; try done; try absurd_membership;
        match goal with
        | |- context [?l !! i] =>
            destruct (l !! i); simpl; [|done]; now rewrite pinComponent_idemp
        end
      | rewrite list_lookup_alter_ne by done;
        repeat case_decide; try done; absurd_membership ]
  end.

Lemma walk_services refs spec i :
  Services (walk refs spec) !! i
  = if decide (InServices i ∈ refs) then pin <$> Services spec !! i
    else Services spec !! i.
Proof.
  subst walk pin. revert spec.
  induction refs as [|r refs IH]; intros spec; [done|]. walk_lookup IH.
Qed.

Lemma walk_workers refs spec i :
  Workers (walk refs spec) !! i
  = if decide (InWorkers i ∈ refs) then pin <$> Workers spec !! i
    else Workers spec !! i.
Proof.
  subst walk pin. revert spec.
  induction refs as [|r refs IH]; intros spec; [done|]. walk_lookup IH.
Qed.

Lemma walk_jobs refs spec i :
  Jobs (walk refs spec) !! i
  = if decide (InJobs i ∈ refs) then pin <$> Jobs spec !! i
    else Jobs spec !! i.
Proof.
  subst walk pin. revert spec.
  induction refs as [|r refs IH]; intros spec; [done|]. walk_lookup IH.
Qed.

End Walk.

Lemma walk_all_gathered fullName prBranch (spec : AppSpec) :
  let out := fold_left (pinAt fullName prBranch) (githubRefs spec) spec in
  Services out = pinComponent fullName prBranch <$> Services spec /\
  Workers out = pinComponent fullName prBranch <$> Workers spec /\
  Jobs out = pinComponent fullName prBranch <$> Jobs spec.
Proof.
  cbv zeta.
  assert (Hfix : forall (refs : list RefLoc) mk (cs : list (option ComponentSpec)) i,
             (forall k c g, cs !! k = Some c -> GetGitHub c = Some g -> mk k ∈ refs) ->
             (if decide (mk i ∈ refs)
              then pinComponent fullName prBranch <$> cs !! i else cs !! i)
             = (pinComponent fullName prBranch <$> cs) !! i).
  { intros refs mk cs i Hall. rewrite list_lookup_fmap.
    case_decide as Hin; [done|].
    destruct (cs !! i) as [c|] eqn:Hc; [simpl|done].
    destruct (GetGitHub c) as [g|] eqn:Hg.
    - destruct Hin. eapply Hall; eauto.
    - now rewrite pinComponent_no_source. }
  unfold githubRefs. repeat split; apply list_eq; intros i.
  - rewrite walk_services. apply (Hfix _ InServices). intros k c g Hk Hg.
    apply elem_of_app. left. apply (gatherRefs_complete InServices 0 _ k c g Hk Hg).
  - rewrite walk_workers. apply (Hfix _ InWorkers). intros k c g Hk Hg.
    apply elem_of_app. right. apply elem_of_app. left.
    apply (gatherRefs_complete InWorkers 0 _ k c g Hk Hg).
  - rewrite walk_jobs. apply (Hfix _ InJobs). intros k c g Hk Hg.
    apply elem_of_app. right. apply elem_of_app. right.
    apply (gatherRefs_complete InJobs 0 _ k c g Hk Hg).
Qed.

Lemma pinComponent_scopes fullName prBranch cs :
  scopedTo fullName prBranch cs (pinComponent fullName prBranch <$> cs).
Proof.
  split; [apply length_fmap|].
  intros i c Hc. exists (pinComponent fullName prBranch c).
  rewrite list_lookup_fmap, Hc. split; [done|].
  destruct c as [[[ref|] rest]|]; simpl; try done.
  split; [done|]. unfold pinRef.
  destruct (String.eqb_spec (Repo ref) fullName); simpl; split; intros; congruence.
Qed.

(** C3: the transformed spec carries the environment identity as its name, has
    no domains and no alerts, and in its services, workers and jobs every
    source of the PR's repository is pinned to the PR's head branch with
    auto-deploy off, every other source being as in the input. *)
Theorem prScopedSpec_scopes repoOwner repoName prBranch name (spec : AppSpec) :
  let out := prScopedSpec repoOwner repoName prBranch name spec in
  let fullName := repoFullName repoOwner repoName in
  Name out = name /\ Domains out = [] /\ Alerts out = [] /\
  scopedTo fullName prBranch (Services spec) (Services out) /\
  scopedTo fullName prBranch (Workers spec) (Workers out) /\
  scopedTo fullName prBranch (Jobs spec) (Jobs out).
Proof.
  cbv zeta. unfold prScopedSpec.
  set (spec1 := {| Name := name; Services := Services spec |}).
  destruct (walk_untouched (repoFullName repoOwner repoName) prBranch
              (githubRefs spec1) spec1) as (-> & _ & _ & -> & ->).
  destruct (walk_all_gathered (repoFullName repoOwner repoName) prBranch spec1)
    as (-> & -> & ->).
  repeat split; try reflexivity; apply pinComponent_scopes.
Qed.

(** The scenario of the spec: pull request 42 of [acme/widgets], head branch
    [feature]. *)
Example prScopedSpec_scenario :
  prScopedSpec "acme" "widgets" "feature" (appName "acme" "widgets" 42)
    exampleSpec
  = {| Name := "acme-widgets-42";
       Services :=
         [Some {| GitHub := Some {| Repo := "acme/widgets"; Branch := "feature";
                                    DeployOnPush := false |};
                  Rest := "web" |}];
       StaticSites := [];
       Workers :=
         [Some {| GitHub := Some {| Repo := "acme/tools"; Branch := "main";
                                    DeployOnPush := true |};
                  Rest := "cron" |};
          None];
       Jobs := [Some {| GitHub := None; Rest := "migrate" |}];
       Functions := [];
       Domains := [];
       Alerts := [] |}.
Proof. reflexivity. Qed.

(** ** The pollers *)

Section PollFacts.

Context {St : Type}.
Variable fetched : result (option St) -> Event.
Variable satisfied : option St -> bool.
Variable wrap : error -> error.

Hypothesis fetched_inj : forall r r', fetched r = fetched r' -> r = r'.
Hypothesis fetched_not_select : forall r done, fetched r <> Select done.

Let run := pollRun fetched satisfied wrap.

(** A poll fetches and waits, and does nothing else. *)
Lemma pollRun_events tp out :
  run tp out ->
  Forall (fun e => (exists r, e = fetched r) \/ (exists done, e = Select done)) tp.
Proof.
  induction 1;
    repeat match goal with
           | |- Forall _ (_ :: _) => apply Forall_cons; split
           | |- Forall _ [] => apply Forall_nil
           end; eauto.
Qed.

Lemma pollRun_not_panicked tp : ~ run tp Panicked.
Proof.
  intros H. remember Panicked as out eqn:E.
  induction H; try discriminate. auto.
Qed.

(** After a fetch that satisfies the test the loop waits once and leaves:
    with the fetched state when the ticker fires, with the error of the
    context when the context is done. *)
Lemma pollRun_after_satisfied tp out t1 s t2 :
  run tp out ->
  tp = t1 ++ fetched (Value s) :: t2 ->
  satisfied s = true ->
  exists done,
    t2 = [Select done] /\
    out = match done with
          | Some ctxErr => Returned (Failure ctxErr)
          | None => Returned (Value s)
          end.
Proof.
  intros H. revert t1. induction H as [err|s0 e|s0 Hs0|s0 tp out Hs0 H IH|];
    intros t1 E Hs.
  - destruct t1 as [|x [|y t1]]; simplify_eq/=.
    apply fetched_inj in H. discriminate.
  - destruct t1 as [|x [|y [|z t1]]]; simplify_eq/=.
    + apply fetched_inj in H. simplify_eq. by exists (Some e).
    + by edestruct fetched_not_select.
  - destruct t1 as [|x [|y [|z t1]]]; simplify_eq/=.
    + apply fetched_inj in H. simplify_eq. by exists None.
    + by edestruct fetched_not_select.
  - destruct t1 as [|x [|y t1]]; simplify_eq/=.
    + apply fetched_inj in H0. simplify_eq. congruence.
    + by edestruct fetched_not_select.
    + by eapply IH.
  - destruct t1; discriminate.
Qed.

(** A poll that hands back a state ended with the fetch of that state and a
    tick, and the state satisfies the test. *)
Lemma pollRun_returned tp s :
  run tp (Returned (Value s)) ->
  satisfied s = true /\ exists tp', tp = tp' ++ [fetched (Value s); Select None].
Proof.
  intros H. remember (Returned (Value s)) as out eqn:E.
  induction H as [err|s0 e|s0 Hs0|s0 tp out Hs0 H IH|]; simplify_eq.
  - split; [done|]. by exists [].
  - destruct (IH eq_refl) as [Hs [tp' ->]]. split; [done|].
    by exists (fetched (Value s0) :: Select None :: tp').
Qed.

(** In a poll that the context does not end, a fetched state that satisfies
    the test is what the poll returns. *)
Lemma pollRun_satisfied_member tp out s :
  run tp out ->
  fetched (Value s) ∈ tp ->
  satisfied s = true ->
  (forall ctxErr, Select (Some ctxErr) ∉ tp) ->
  out = Returned (Value s).
Proof.
  intros H (t1 & t2 & ->)%list_elem_of_split Hs Hnone.
  destruct (pollRun_after_satisfied _ _ _ _ _ H eq_refl Hs) as ([e|] & -> & ->);
    [|done].
  destruct (Hnone e). apply elem_of_app. right. right. left.
Qed.

End PollFacts.

(** The two loops of the source run as [pollRun] says. *)
Lemma waitForDeploymentTerminalFrom_run W fuel appID deploymentID d t0 :
  exists out tp,
    waitForDeploymentTerminalFrom W fuel appID deploymentID d t0 = (out, t0 ++ tp) /\
    if isInTerminalPhase d then out = Returned (Value d) /\ tp = []
    else pollRun (DoAppsGetDeployment appID deploymentID) isInTerminalPhase
           (Errorf "failed to get deployment") tp out.
Proof.
  revert d t0. induction fuel as [|fuel IH]; intros d t0; simpl;
    destruct (isInTerminalPhase d) eqn:Hd.
  - exists (Returned (Value d)), []. by rewrite app_nil_r.
  - exists OutOfFuel, []. rewrite app_nil_r. split; [done|constructor].
  - exists (Returned (Value d)), []. by rewrite app_nil_r.
  - unfold bind, call.
    destruct (doAppsGetDeployment W t0 appID deploymentID) as [d'|err] eqn:Hf.
    + destruct (ctxDone W (t0 ++ [DoAppsGetDeployment appID deploymentID (Value d')]))
        as [ctxErr|] eqn:Hs.
      * eexists _, [_; _]. unfold ret. rewrite <- app_assoc. simpl.
        split; [done|constructor].
      * destruct (IH d' ((t0 ++ [DoAppsGetDeployment appID deploymentID (Value d')])
                           ++ [Select None])) as (out & tp & -> & Hrun).
        exists out, (DoAppsGetDeployment appID deploymentID (Value d')
                       :: Select None :: tp).
        rewrite <- !app_assoc. simpl. split; [done|].
        destruct (isInTerminalPhase d') eqn:Hd'.
        -- destruct Hrun as [-> ->]. by constructor.
        -- by constructor.
    + eexists _, [_]. unfold ret. split; [done|constructor].
Qed.

Lemma waitForAppLiveURLFrom_run W fuel appID a t0 :
  exists out tp,
    waitForAppLiveURLFrom W fuel appID a t0 = (out, t0 ++ tp) /\
    if negb (String.eqb (GetLiveURL a) EmptyString)
    then out = Returned (Value a) /\ tp = []
    else pollRun (DoAppsGet appID)
           (fun a => negb (String.eqb (GetLiveURL a) EmptyString))
           (Errorf "failed to get deployment") tp out.
Proof.
  revert a t0. induction fuel as [|fuel IH]; intros a t0; simpl;
    destruct (negb (String.eqb (GetLiveURL a) EmptyString)) eqn:Ha.
  - exists (Returned (Value a)), []. by rewrite app_nil_r.
  - exists OutOfFuel, []. rewrite app_nil_r. split; [done|constructor].
  - exists (Returned (Value a)), []. by rewrite app_nil_r.
  - unfold bind, call.
    destruct (doAppsGet W t0 appID) as [a'|err] eqn:Hf.
    + destruct (ctxDone W (t0 ++ [DoAppsGet appID (Value a')]))
        as [ctxErr|] eqn:Hs.
      * eexists _, [_; _]. unfold ret. rewrite <- app_assoc. simpl.
        split; [done|constructor].
      * destruct (IH a' ((t0 ++ [DoAppsGet appID (Value a')]) ++ [Select None]))
          as (out & tp & -> & Hrun).
        exists out, (DoAppsGet appID (Value a') :: Select None :: tp).
        rewrite <- !app_assoc. simpl. split; [done|].
        destruct (negb (String.eqb (GetLiveURL a') EmptyString)) eqn:Ha'.
        -- destruct Hrun as [-> ->]. by constructor.
        -- by constructor.
    + eexists _, [_]. unfold ret. split; [done|constructor].
Qed.

Lemma waitForDeploymentTerminal_run W fuel appID deploymentID t0 :
  exists out tp,
    waitForDeploymentTerminal W fuel appID deploymentID t0 = (out, t0 ++ tp) /\
    pollRun (DoAppsGetDeployment appID deploymentID) isInTerminalPhase
      (Errorf "failed to get deployment") tp out.
Proof.
  exact (waitForDeploymentTerminalFrom_run W fuel appID deploymentID None t0).
Qed.

Lemma waitForAppLiveURL_run W fuel appID t0 :
  exists out tp,
    waitForAppLiveURL W fuel appID t0 = (out, t0 ++ tp) /\
    pollRun (DoAppsGet appID)
      (fun a => negb (String.eqb (GetLiveURL a) EmptyString))
      (Errorf "failed to get deployment") tp out.
Proof.
  exact (waitForAppLiveURLFrom_run W fuel appID None t0).
Qed.

Lemma waitForDeploymentTerminal_after_terminal W fuel appID deploymentID
    t0 out t t1 d t2 :
  waitForDeploymentTerminal W fuel appID deploymentID t0 = (out, t) ->
  t = t0 ++ t1 ++ DoAppsGetDeployment appID deploymentID (Value d) :: t2 ->
  isInTerminalPhase d = true ->
  exists done,
    t2 = [Select done] /\
    out = match done with
          | Some ctxErr => Returned (Failure ctxErr)
          | None => Returned (Value d)
          end.
Proof.
  intros Hrun Ht Hd.
  destruct (waitForDeploymentTerminal_run W fuel appID deploymentID t0)
    as (out' & tp & E & Hp).
  rewrite E in Hrun. injection Hrun as -> <-.
  apply app_inv_head in Ht.
  eapply pollRun_after_satisfied; [| |exact Hp|exact Ht|exact Hd].
  - intros r r' H. by injection H.
  - intros r done H. discriminate H.
Qed.

Lemma waitForAppLiveURL_after_live W fuel appID t0 out t t1 a t2 :
  waitForAppLiveURL W fuel appID t0 = (out, t) ->
  t = t0 ++ t1 ++ DoAppsGet appID (Value a) :: t2 ->
  negb (String.eqb (GetLiveURL a) EmptyString) = true ->
  exists done,
    t2 = [Select done] /\
    out = match done with
          | Some ctxErr => Returned (Failure ctxErr)
          | None => Returned (Value a)
          end.
Proof.
  intros Hrun Ht Ha.
  destruct (waitForAppLiveURL_run W fuel appID t0) as (out' & tp & E & Hp).
  rewrite E in Hrun. injection Hrun as -> <-.
  apply app_inv_head in Ht.
  eapply (pollRun_after_satisfied (DoAppsGet appID)
            (fun a => negb (String.eqb (GetLiveURL a) EmptyString)));
    [| |exact Hp|exact Ht|exact Ha].
  - intros r r' H. by injection H.
  - intros r done H. discriminate H.
Qed.

(** C4, as the code has it: once a fetch of either poller has answered with
    a state that satisfies the poller's test, the poller fetches no more, and
    it returns that very state unless the context is done during the wait
    that follows the fetch. *)
Theorem pollers_stop_at_satisfying_fetch W fuel appID deploymentID :
  (forall t0 out t t1 d t2,
      waitForDeploymentTerminal W fuel appID deploymentID t0 = (out, t) ->
      t = t0 ++ t1 ++ DoAppsGetDeployment appID deploymentID (Value d) :: t2 ->
      isInTerminalPhase d = true ->
      (forall a i r, DoAppsGetDeployment a i r ∉ t2) /\
      ((forall ctxErr, Select (Some ctxErr) ∉ t2) -> out = Returned (Value d))) /\
  (forall t0 out t t1 a t2,
      waitForAppLiveURL W fuel appID t0 = (out, t) ->
      t = t0 ++ t1 ++ DoAppsGet appID (Value a) :: t2 ->
      GetLiveURL a <> EmptyString ->
      (forall i r, DoAppsGet i r ∉ t2) /\
      ((forall ctxErr, Select (Some ctxErr) ∉ t2) -> out = Returned (Value a))).
Proof.
  split.
  - intros t0 out t t1 d t2 Hrun Ht Hd.
    destruct (waitForDeploymentTerminal_after_terminal _ _ _ _ _ _ _ _ _ _
                Hrun Ht Hd) as (done & -> & ->).
    split.
    + intros a i r [H|H]%elem_of_cons; [discriminate|by apply elem_of_nil in H].
    + intros Hnone. destruct done as [ctxErr|]; [|done].
      destruct (Hnone ctxErr). left.
  - intros t0 out t t1 a t2 Hrun Ht Ha.
    assert (Ha' : negb (String.eqb (GetLiveURL a) EmptyString) = true).
    { destruct (String.eqb_spec (GetLiveURL a) EmptyString); [done|done]. }
    destruct (waitForAppLiveURL_after_live _ _ _ _ _ _ _ _ _
                Hrun Ht Ha') as (done & -> & ->).
    split.
    + intros i r [H|H]%elem_of_cons; [discriminate|by apply elem_of_nil in H].
    + intros Hnone. destruct done as [ctxErr|]; [|done].
      destruct (Hnone ctxErr). left.
Qed.

(** C4 as stated fails: the fetch answers with a deployment in a terminal
    phase, the context is done during the wait that follows, and the poller
    returns the error of the context, not the deployment. *)
Lemma poller_drops_satisfying_state :
  let W := exampleWorld [] DeploymentPhase_Active None exampleInitial alwaysDone in
  let d := Some {| DeploymentID := "dep-1"; Phase := DeploymentPhase_Active |} in
  isInTerminalPhase d = true /\
  waitForDeploymentTerminal W 5 "app-1" "dep-1" []
  = (Returned (Failure (External "context canceled")),
     [DoAppsGetDeployment "app-1" "dep-1" (Value d);
      Select (Some (External "context canceled"))]).
Proof. split; reflexivity. Qed.

(** The deployment poller on a run in which the first fetch already shows a
    terminal phase and the ticker fires. *)
Lemma pollers_stop_at_satisfying_fetch_witness :
  let W := exampleWorld [] DeploymentPhase_Error None exampleInitial neverDone in
  let d := Some {| DeploymentID := "dep-1"; Phase := DeploymentPhase_Error |} in
  waitForDeploymentTerminal W 5 "app-1" "dep-1" []
  = (Returned (Value d),
     [] ++ [] ++ [DoAppsGetDeployment "app-1" "dep-1" (Value d); Select None]) /\
  (forall a i r, DoAppsGetDeployment a i r ∉ [Select None]) /\
  ((forall ctxErr, Select (Some ctxErr) ∉ [Select None]) ->
   Returned (Value d) = Returned (Value d)).
Proof.
  cbv zeta. split; [reflexivity|].
  eapply (proj1 (pollers_stop_at_satisfying_fetch
                   (exampleWorld [] DeploymentPhase_Error None exampleInitial
                      neverDone) 5 "app-1" "dep-1") [] _ _ []);
    reflexivity.
Defined.

(** C10: after a fetch whose answer satisfies the test, either poller still
    waits once on the ticker and the context, and only then leaves: with the
    fetched state when the ticker fires, and, when the context is done during
    that wait, with the error of the context and not the state it fetched. *)
Theorem pollers_wait_after_satisfying_fetch W fuel appID deploymentID :
  (forall t0 out t t1 d t2,
      waitForDeploymentTerminal W fuel appID deploymentID t0 = (out, t) ->
      t = t0 ++ t1 ++ DoAppsGetDeployment appID deploymentID (Value d) :: t2 ->
      isInTerminalPhase d = true ->
      exists done,
        t2 = [Select done] /\
        out = match done with
              | Some ctxErr => Returned (Failure ctxErr)
              | None => Returned (Value d)
              end) /\
  (forall t0 out t t1 a t2,
      waitForAppLiveURL W fuel appID t0 = (out, t) ->
      t = t0 ++ t1 ++ DoAppsGet appID (Value a) :: t2 ->
      GetLiveURL a <> EmptyString ->
      exists done,
        t2 = [Select done] /\
        out = match done with
              | Some ctxErr => Returned (Failure ctxErr)
              | None => Returned (Value a)
              end).
Proof.
  split.
  - intros t0 out t t1 d t2 Hrun Ht Hd.
    exact (waitForDeploymentTerminal_after_terminal _ _ _ _ _ _ _ _ _ _
             Hrun Ht Hd).
  - intros t0 out t t1 a t2 Hrun Ht Ha.
    assert (Ha' : negb (String.eqb (GetLiveURL a) EmptyString) = true).
    { destruct (String.eqb_spec (GetLiveURL a) EmptyString); [done|done]. }
    exact (waitForAppLiveURL_after_live _ _ _ _ _ _ _ _ _ Hrun Ht Ha').
Qed.

(** The live-URL poller on a run in which the app has its URL at the first
    fetch and the context is done during the wait. *)
Lemma pollers_wait_after_satisfying_fetch_witness :
  let W := exampleWorld [] DeploymentPhase_Active None exampleInitial alwaysDone in
  let a := Some {| ID := "app-1"; LiveURL := "https://pr-42.example.app" |} in
  waitForAppLiveURL W 5 "app-1" []
  = (Returned (Failure (External "context canceled")),
     [] ++ [] ++ [DoAppsGet "app-1" (Value a);
                  Select (Some (External "context canceled"))]) /\
  exists done,
    [Select (Some (External "context canceled"))] = [Select done] /\
    Returned (Failure (External "context canceled"))
    = match done with
      | Some ctxErr => Returned (Failure ctxErr)
      | None => Returned (Value a)
      end.
Proof.
  cbv zeta. split; [reflexivity|].
  eapply (proj2 (pollers_wait_after_satisfying_fetch
                   (exampleWorld [] DeploymentPhase_Active None exampleInitial
                      alwaysDone) 5 "app-1" "dep-1") [] _ _ []);
    [reflexivity|reflexivity|discriminate].
Defined.

(** ** [waitAndPropagate] *)

Lemma waitAndPropagate_run W fuel owner repo appID deploymentID ghDeploymentID t0 :
  exists out tw,
    waitAndPropagate W fuel owner repo appID deploymentID ghDeploymentID t0
    = (out, t0 ++ tw) /\
    propagateRun owner repo appID deploymentID ghDeploymentID tw out.
Proof.
  unfold waitAndPropagate, bind.
  destruct (waitForDeploymentTerminal_run W fuel appID deploymentID t0)
    as (out1 & tp & -> & Hp).
  destruct out1 as [[[d|]|err]| |].
  - destruct (isActive (Phase d)) eqn:Hact; simpl.
    + destruct (waitForAppLiveURL_run W fuel appID (t0 ++ tp))
        as (out2 & tq & -> & Hq).
      destruct out2 as [[[app|]|err]| |].
      * unfold call, ret.
        match goal with
        | |- context [ghCreateDeploymentStatus ?w ?t ?o ?r ?i ?q] =>
            destruct (ghCreateDeploymentStatus w t o r i q) as [serr|]
        end.
        -- eexists _, (tp ++ tq ++ [_]). rewrite <- !app_assoc.
           split; [reflexivity|].
           exact (propagate_success _ _ _ _ _ tp d tq app (Some serr) Hp Hact Hq).
        -- eexists _, (tp ++ tq ++ [_]). rewrite <- !app_assoc.
           split; [reflexivity|].
           exact (propagate_success _ _ _ _ _ tp d tq app None Hp Hact Hq).
      * apply pollRun_returned in Hq as [Hq _]. discriminate Hq.
      * eexists _, (tp ++ tq). rewrite <- app_assoc. split; [reflexivity|].
        by eapply propagate_url_failed.
      * by apply pollRun_not_panicked in Hq.
      * eexists _, (tp ++ tq). rewrite <- app_assoc. split; [reflexivity|].
        by eapply propagate_url_out_of_fuel.
    + unfold call, ret.
      match goal with
      | |- context [ghCreateDeploymentStatus ?w ?t ?o ?r ?i ?q] =>
          destruct (ghCreateDeploymentStatus w t o r i q) as [serr|]
      end.
      * eexists _, (tp ++ [_]). rewrite <- !app_assoc.
        split; [reflexivity|].
        exact (propagate_unsuccessful _ _ _ _ _ tp d (Some serr) Hp Hact).
      * eexists _, (tp ++ [_]). rewrite <- !app_assoc.
        split; [reflexivity|].
        exact (propagate_unsuccessful _ _ _ _ _ tp d None Hp Hact).
  - apply pollRun_returned in Hp as [Hp _]. discriminate Hp.
  - eexists _, tp. split; [reflexivity|]. by constructor.
  - by apply pollRun_not_panicked in Hp.
  - eexists _, tp. split; [reflexivity|]. by constructor.
Qed.

Lemma propagateRun_events owner repo appID deploymentID ghDeploymentID tw out :
  propagateRun owner repo appID deploymentID ghDeploymentID tw out ->
  Forall (fun e => isWaitEvent e = true) tw.
Proof.
  assert (Hd : forall tp o, deploymentPoll appID deploymentID tp o ->
                            Forall (fun e => isWaitEvent e = true) tp).
  { intros tp o H%pollRun_events. eapply Forall_impl; [exact H|].
    intros e [[r ->]|[done ->]]; reflexivity. }
  assert (Ha : forall tq o, liveURLPoll appID tq o ->
                            Forall (fun e => isWaitEvent e = true) tq).
  { intros tq o H%pollRun_events. eapply Forall_impl; [exact H|].
    intros e [[r ->]|[done ->]]; reflexivity. }
  destruct 1; repeat (apply Forall_app; split); eauto;
    by apply Forall_singleton.
Qed.

(** A transcript of wait events creates nothing. *)
Lemma wait_events_create_nothing t :
  Forall (fun e => isWaitEvent e = true) t ->
  appsCreated t = [] /\ deploymentsTriggered t = [] /\ recordsCreated t = [] /\
  (forall a r, DoAppsListDeployments a r ∉ t).
Proof.
  induction 1 as [|e t He _ (IH1 & IH2 & IH3 & IH4)].
  - repeat split. intros a r H. by apply elem_of_nil in H.
  - destruct e; try discriminate He; simpl; repeat split; try done;
      intros a' r' [E|E]%elem_of_cons; try discriminate E; by eapply IH4.
Qed.

Lemma appsCreated_app t1 t2 :
  appsCreated (t1 ++ t2) = appsCreated t1 ++ appsCreated t2.
Proof.
  induction t1 as [|e t1 IH]; [done|]. destruct e; simpl; by rewrite ?IH.
Qed.

Lemma deploymentsTriggered_app t1 t2 :
  deploymentsTriggered (t1 ++ t2)
  = deploymentsTriggered t1 ++ deploymentsTriggered t2.
Proof.
  induction t1 as [|e t1 IH]; [done|]. destruct e; simpl; by rewrite ?IH.
Qed.

Lemma recordsCreated_app t1 t2 :
  recordsCreated (t1 ++ t2) = recordsCreated t1 ++ recordsCreated t2.
Proof.
  induction t1 as [|e t1 IH]; [done|]. destruct e; simpl; by rewrite ?IH.
Qed.

Lemma statusUpdates_app t1 t2 :
  statusUpdates (t1 ++ t2) = statusUpdates t1 ++ statusUpdates t2.
Proof.
  induction t1 as [|e t1 IH]; [done|]. destruct e; simpl; by rewrite ?IH.
Qed.

Lemma poll_events_report_nothing {St} (fetched : result (option St) -> Event) t :
  (forall r, statusUpdates [fetched r] = []) ->
  Forall (fun e => (exists r, e = fetched r) \/ (exists done, e = Select done)) t ->
  statusUpdates t = [].
Proof.
  intros Hf. induction 1 as [|e t He _ IH]; [done|].
  change (e :: t) with ([e] ++ t). rewrite statusUpdates_app, IH, app_nil_r.
  destruct He as [[r ->]|[sel ->]]; [apply Hf|done].
Qed.

(** When the poll for a terminal phase has fetched a deployment in a terminal
    phase other than active and the context is never done, the closure ends
    with the report of the failure, its only status update. *)
Lemma propagateRun_unsuccessful owner repo appID deploymentID ghDeploymentID
    tw out a i d :
  propagateRun owner repo appID deploymentID ghDeploymentID tw out ->
  DoAppsGetDeployment a i (Value (Some d)) ∈ tw ->
  isInTerminalPhase (Some d) = true ->
  isActive (Phase d) = false ->
  (forall ctxErr, Select (Some ctxErr) ∉ tw) ->
  exists tp err,
    tw = tp ++ [GhCreateDeploymentStatus owner repo ghDeploymentID
                  {| State := Some deploymentStateError;
                     EnvironmentURL := None;
                     AutoInactive := Some true |} err] /\
    statusUpdates tp = [] /\
    out = Returned
            match err with
            | Some err =>
                Some (Errorf "failed to update deployment with failure" err)
            | None => None
            end.
Proof.
  intros Hrun Hin Hterm Hact Hnone.
  assert (Hmem : forall tp o rest,
             deploymentPoll appID deploymentID tp o ->
             tw = tp ++ rest ->
             (forall e, e ∈ rest -> forall r, e <> DoAppsGetDeployment a i r) ->
             o = Returned (Value (Some d))).
  { intros tp o rest Hp -> Hrest.
    apply elem_of_app in Hin as [Hin|Hin];
      [|by destruct (Hrest _ Hin (Value (Some d)))].
    assert (E : a = appID /\ i = deploymentID).
    { apply pollRun_events in Hp. rewrite Forall_forall in Hp.
      destruct (Hp _ Hin) as [[r E]|[done E]]; [by injection E|discriminate E]. }
    destruct E as [-> ->].
    eapply (pollRun_satisfied_member (DoAppsGetDeployment appID deploymentID));
      [| |exact Hp|exact Hin|exact Hterm|].
    - intros r r' H. by injection H.
    - intros r done H. discriminate H.
    - intros e He. apply (Hnone e), elem_of_app. by left. }
  assert (Hlive : forall tq o e, liveURLPoll appID tq o -> e ∈ tq ->
                                 forall r, e <> DoAppsGetDeployment a i r).
  { intros tq o e Hq%pollRun_events He r. rewrite Forall_forall in Hq.
    destruct (Hq _ He) as [[r' ->]|[done ->]]; discriminate. }
  destruct Hrun as [tp err Hp|tp Hp|tp d' err Hp Hd'|tp d' tq err Hp Hd' Hq
                   |tp d' tq Hp Hd' Hq|tp d' tq app err Hp Hd' Hq].
  - specialize (Hmem tp _ [] Hp). rewrite app_nil_r in Hmem.
    discriminate Hmem; [done|]. intros e He. by apply elem_of_nil in He.
  - specialize (Hmem tp _ [] Hp). rewrite app_nil_r in Hmem.
    discriminate Hmem; [done|]. intros e He. by apply elem_of_nil in He.
  - exists tp, err. split; [done|]. split; [|done].
    eapply (poll_events_report_nothing (DoAppsGetDeployment appID deploymentID));
      [done|]. eapply pollRun_events, Hp.
  - assert (E : Returned (Value (Some d')) = Returned (Value (Some d))).
    { eapply Hmem; [exact Hp|done|]. intros e He. eapply Hlive; eauto. }
    simplify_eq. congruence.
  - assert (E : Returned (Value (Some d')) = Returned (Value (Some d))).
    { eapply Hmem; [exact Hp|done|]. intros e He. eapply Hlive; eauto. }
    simplify_eq. congruence.
  - assert (E : Returned (Value (Some d')) = Returned (Value (Some d))).
    { eapply Hmem; [exact Hp|done|]. intros e [He|He]%elem_of_app r.
      - eapply Hlive; eauto.
      - apply list_elem_of_singleton in He. subst e. discriminate. }
    simplify_eq. congruence.
Qed.

(** A poll that returns has fetched at least once. *)
Lemma pollRun_starts_with_fetch {St} (fetched : result (option St) -> Event)
    satisfied wrap tp r :
  pollRun fetched satisfied wrap tp (Returned r) ->
  exists r' tp', tp = fetched r' :: tp'.
Proof. intros H. inversion H; subst; by eexists _, _. Qed.

(** The closure follows the deployment it was given and no other: every
    fetch of a deployment is for [appID] and [deploymentID], and a closure
    that returns has fetched that deployment at least once. *)
Lemma propagateRun_follows owner repo appID deploymentID ghDeploymentID tw out :
  propagateRun owner repo appID deploymentID ghDeploymentID tw out ->
  (forall a i r, DoAppsGetDeployment a i r ∈ tw -> a = appID /\ i = deploymentID) /\
  (forall err, out = Returned err ->
               exists r, DoAppsGetDeployment appID deploymentID r ∈ tw).
Proof.
  intros Hrun.
  assert (Hd : forall tp o a i r,
             deploymentPoll appID deploymentID tp o ->
             DoAppsGetDeployment a i r ∈ tp -> a = appID /\ i = deploymentID).
  { intros tp o a i r Hp%pollRun_events Hin. rewrite Forall_forall in Hp.
    destruct (Hp _ Hin) as [[r' E]|[sel E]]; [by injection E|discriminate E]. }
  assert (Ha : forall tq o a i r,
             liveURLPoll appID tq o -> DoAppsGetDeployment a i r ∉ tq).
  { intros tq o a i r Hq%pollRun_events Hin. rewrite Forall_forall in Hq.
    destruct (Hq _ Hin) as [[r' E]|[sel E]]; discriminate E. }
  assert (Hs : forall tp r,
             deploymentPoll appID deploymentID tp (Returned r) ->
             exists r', DoAppsGetDeployment appID deploymentID r' ∈ tp).
  { intros tp r (r' & tp' & ->)%pollRun_starts_with_fetch. exists r'. left. }
  split.
  - intros a i r Hin.
    destruct Hrun; repeat (apply elem_of_app in Hin as [Hin|Hin]); eauto;
      try (by edestruct Ha);
      apply list_elem_of_singleton in Hin; discriminate Hin.
  - intros err' E.
    destruct Hrun; try discriminate E;
      match goal with
      | Hp : deploymentPoll _ _ ?tp (Returned _) |- _ =>
          destruct (Hs _ _ Hp) as [r' Hr']; exists r';
          rewrite ?elem_of_app; auto
      end.
Qed.

(** ** [Handle] *)

(** Runs [Handle] on every path: each answer of a collaborator is taken
    apart, and the transcript of [waitAndPropagate] is described by
    [propagateRun]. *)
Ltac run_handle Hrun :=
  unfold Handle, bind, call, log, ret, panic in Hrun;
  repeat case_match; simplify_eq;
  repeat match goal with
         | H : waitAndPropagate ?W ?f ?o ?r ?a ?i ?g ?t0 = (_, _) |- _ =>
             let out := fresh "out" in
             let tw := fresh "tw" in
             let E := fresh "E" in
             let Hw := fresh "Hw" in
             destruct (waitAndPropagate_run W f o r a i g t0)
               as (out & tw & E & Hw);
             rewrite E in H; clear E; simplify_eq
         end;
  cbn [app] in *.

(** Takes a membership in a transcript apart, down to memberships in the
    transcripts of [waitAndPropagate]. *)
Ltac split_membership :=
  repeat match goal with
         | H : _ ∈ [] |- _ => by apply elem_of_nil in H
         | H : _ ∈ _ :: _ |- _ => apply elem_of_cons in H as [H|H]
         | H : _ ∈ _ ++ _ |- _ => apply elem_of_app in H as [H|H]
         | H : @eq Event _ _ |- _ => discriminate H || (injection H as H; subst)
         end.

(** C8: on a pull request whose head repository is not the repository of the
    event, the handler returns nil, and its transcript holds no call to a
    collaborator, not even the creation of the installation client. *)
Theorem Handle_ignores_forks W D fuel payload event :
  unmarshalEvent D payload = Value event ->
  RepoID event <> HeadRepoID event ->
  exists t,
    Handle W D fuel payload [] = (Returned None, t) /\
    externalCalls t = [].
Proof.
  intros Hparse Hfork. unfold Handle. rewrite Hparse.
  destruct (negb (isHandledAction (Action event))); [by exists []|].
  destruct (Z.eqb_spec (RepoID event) (HeadRepoID event)) as [E|_]; [done|].
  simpl. by eexists.
Qed.

Lemma Handle_ignores_forks_witness :
  let W := exampleWorld [exampleRecord] DeploymentPhase_Active None
             exampleInitial neverDone in
  let event := exampleEvent actionOpened 2002 in
  RepoID event <> HeadRepoID event /\
  exists t,
    Handle W (exampleDecoders event) 5 "payload" [] = (Returned None, t) /\
    externalCalls t = [].
Proof.
  cbv zeta. split; [discriminate|].
  apply (Handle_ignores_forks _ (exampleDecoders (exampleEvent actionOpened 2002))
           5 "payload" (exampleEvent actionOpened 2002)); [reflexivity|discriminate].
Defined.

(** C9: a run in which the platform answers the listing of the deployments
    of the new app with an empty list ends in a panic; the listing comes
    right after the creation of the app and of the deployment record. *)
Theorem Handle_panics_on_empty_deployment_list W D fuel payload out t appID :
  Handle W D fuel payload [] = (out, t) ->
  DoAppsListDeployments appID (Value []) ∈ t ->
  out = Panicked /\
  exists t' spec app owner repo req record,
    t = t' ++ [DoAppsCreate spec (Value (Some app));
               GhCreateDeployment owner repo req (Value record);
               DoAppsListDeployments appID (Value [])] /\
    appID = ID app /\
    AppID (RequestPayload req) = ID app.
Proof.
  intros Hrun Hin. run_handle Hrun; split_membership;
    try match goal with
        | Hw : propagateRun _ _ _ _ _ ?tw _, H : _ ∈ ?tw |- _ =>
            apply propagateRun_events, wait_events_create_nothing in Hw;
            destruct Hw as (_ & _ & _ & Hw); by destruct (Hw _ _ H)
        end.
  split; [done|].
  by eexists [_; _; _], _, _, _, _, _, _.
Qed.

Lemma Handle_panics_on_empty_deployment_list_witness :
  let W := exampleWorld [] DeploymentPhase_Active None [] neverDone in
  let run := Handle W (exampleDecoders (exampleEvent actionOpened 1001)) 5
               "payload" [] in
  DoAppsListDeployments "app-1" (Value []) ∈ run.2 /\
  run.1 = Panicked /\
  exists t' spec app owner repo req record,
    run.2 = t' ++ [DoAppsCreate spec (Value (Some app));
                   GhCreateDeployment owner repo req (Value record);
                   DoAppsListDeployments "app-1" (Value [])] /\
    "app-1" = ID app /\
    AppID (RequestPayload req) = ID app.
Proof.
  cbv zeta.
  assert (Hin : DoAppsListDeployments "app-1" (Value [])
                ∈ (Handle (exampleWorld [] DeploymentPhase_Active None [] neverDone)
                     (exampleDecoders (exampleEvent actionOpened 1001)) 5
                     "payload" []).2).
  { vm_compute. do 5 right. left. }
  split; [exact Hin|].
  exact (Handle_panics_on_empty_deployment_list _ _ _ _ _ _ _
           (surjective_pairing _) Hin).
Defined.

(** Settles the paths of [Handle] that the action or the fork guard rule
    out. *)
Ltac wrong_path Hact Hsame :=
  try (exfalso;
       match goal with
       | H : negb (RepoID _ =? HeadRepoID _)%Z = true |- _ =>
           rewrite Hsame, Z.eqb_refl in H; discriminate H
       end);
  try (exfalso;
       match goal with
       | H : context [Action _] |- _ =>
           rewrite Hact in H; vm_compute in H; discriminate H
       end).

(** C1: when the handling of an [opened] or [reopened] event of a pull
    request that is not from a fork succeeds, the transcript holds exactly
    one creation of an app, answered with an app, and exactly one creation of
    a deployment record, whose payload is the id of that app. *)
Theorem Handle_opened_creates_one_app_and_one_record W D fuel payload event t :
  unmarshalEvent D payload = Value event ->
  Action event = actionOpened \/ Action event = actionReopened ->
  RepoID event = HeadRepoID event ->
  Handle W D fuel payload [] = (Returned None, t) ->
  exists spec app req record,
    appsCreated t = [(spec, Value (Some app))] /\
    recordsCreated t = [(req, Value record)] /\
    RequestPayload req = {| AppID := ID app |}.
Proof.
  intros Hparse Hact Hsame Hrun.
  run_handle Hrun; destruct Hact as [Hact|Hact]; wrong_path Hact Hsame.
  all: apply propagateRun_events, wait_events_create_nothing in Hw
         as (Ha & _ & Hr & _);
       eexists _, _, _, _; cbn [appsCreated recordsCreated];
       rewrite Ha, Hr; done.
Qed.

Lemma Handle_opened_creates_one_app_and_one_record_witness :
  let W := exampleWorld [] DeploymentPhase_Active None exampleInitial neverDone in
  let event := exampleEvent actionOpened 1001 in
  let run := Handle W (exampleDecoders event) 5 "payload" [] in
  run.1 = Returned None /\
  exists spec app req record,
    appsCreated run.2 = [(spec, Value (Some app))] /\
    recordsCreated run.2 = [(req, Value record)] /\
    RequestPayload req = {| AppID := ID app |}.
Proof.
  cbv zeta. split; [reflexivity|].
  apply (Handle_opened_creates_one_app_and_one_record
           (exampleWorld [] DeploymentPhase_Active None exampleInitial neverDone)
           (exampleDecoders (exampleEvent actionOpened 1001)) 5 "payload"
           (exampleEvent actionOpened 1001));
    [reflexivity|left; reflexivity|reflexivity|reflexivity].
Defined.

(** C5, as the code has it: in a run in which a fetch showed the deployment
    in a terminal phase other than active and the context was never done, the
    handler ends with one status update, its only one, with the state [error]
    and no environment URL.  The update is for the deployment record the
    handler created in this run, the only one it created, in the repository
    of the event, and the payload of that record is the id of the app whose
    deployment was fetched.  [Handle] returns nil when that update succeeds,
    and the failure of the update, wrapped, when it does not. *)
Theorem Handle_reports_unsuccessful_deployment W D fuel payload out t a i d :
  Handle W D fuel payload [] = (out, t) ->
  DoAppsGetDeployment a i (Value (Some d)) ∈ t ->
  isInTerminalPhase (Some d) = true ->
  Phase d <> DeploymentPhase_Active ->
  (forall ctxErr, Select (Some ctxErr) ∉ t) ->
  exists event t' req record err,
    unmarshalEvent D payload = Value event /\
    recordsCreated t = [(req, Value record)] /\
    RequestPayload req = {| AppID := a |} /\
    t = t' ++ [GhCreateDeploymentStatus (RepoOwner event) (RepoName event)
                 (GetGhID record)
                 {| State := Some deploymentStateError;
                    EnvironmentURL := None;
                    AutoInactive := Some true |} err] /\
    statusUpdates t' = [] /\
    out = Returned
            match err with
            | Some err =>
                Some (Errorf "failed to propagate deployment status"
                        (Errorf "failed to update deployment with failure" err))
            | None => None
            end.
Proof.
  intros Hrun Hin Hterm Hphase Hnone.
  assert (Hact : isActive (Phase d) = false) by by destruct (Phase d).
  run_handle Hrun; split_membership.
  all: match goal with
       | Hw : propagateRun _ _ _ _ _ ?tw _ |- _ =>
           assert (Hnone' : forall ctxErr, Select (Some ctxErr) ∉ tw)
             by (let c := fresh "ctxErr" in
                 intros c ?; apply (Hnone c); rewrite !elem_of_cons; auto 10);
           destruct (proj1 (propagateRun_follows _ _ _ _ _ _ _ Hw) _ _ _ Hin)
             as [-> ->];
           pose proof (proj1 (proj2 (proj2 (wait_events_create_nothing _
                         (propagateRun_events _ _ _ _ _ _ _ Hw))))) as Hr;
           destruct (propagateRun_unsuccessful _ _ _ _ _ _ _ _ _ _
                       Hw Hin Hterm Hact Hnone') as (tp & err & -> & Hs & E)
       end.
  all: destruct err; simplify_eq.
  all: rewrite !app_comm_cons; eexists _, _, _, _, _;
       (split; [reflexivity|]);
       (split; [cbn [app recordsCreated]; rewrite Hr; reflexivity|]);
       (split; [reflexivity|]);
       (split; [reflexivity|]); split; [exact Hs|reflexivity].
Qed.

Lemma Handle_reports_unsuccessful_deployment_witness :
  let W := exampleWorld [] DeploymentPhase_Error None exampleInitial neverDone in
  let event := exampleEvent actionOpened 1001 in
  let run := Handle W (exampleDecoders event) 5 "payload" [] in
  let d := {| DeploymentID := "dep-1"; Phase := DeploymentPhase_Error |} in
  DoAppsGetDeployment "app-1" "dep-1" (Value (Some d)) ∈ run.2 /\
  (forall ctxErr, Select (Some ctxErr) ∉ run.2) /\
  exists event' t' req record err,
    unmarshalEvent (exampleDecoders event) "payload" = Value event' /\
    recordsCreated run.2 = [(req, Value record)] /\
    RequestPayload req = {| AppID := "app-1" |} /\
    run.2 = t' ++ [GhCreateDeploymentStatus (RepoOwner event') (RepoName event')
                     (GetGhID record)
                     {| State := Some deploymentStateError;
                        EnvironmentURL := None;
                        AutoInactive := Some true |} err] /\
    statusUpdates t' = [] /\
    run.1 = Returned
              match err with
              | Some err =>
                  Some (Errorf "failed to propagate deployment status"
                          (Errorf "failed to update deployment with failure" err))
              | None => None
              end.
Proof.
  cbv zeta.
  set (run := Handle _ _ _ _ _).
  assert (Hin : DoAppsGetDeployment "app-1" "dep-1"
                  (Value (Some {| DeploymentID := "dep-1";
                                  Phase := DeploymentPhase_Error |})) ∈ run.2).
  { vm_compute. do 6 right. left. }
  assert (Hnone : forall ctxErr, Select (Some ctxErr) ∉ run.2).
  { intros ctxErr Hc%list_elem_of_In. vm_compute in Hc.
    intuition discriminate. }
  split; [exact Hin|]. split; [exact Hnone|].
  refine (Handle_reports_unsuccessful_deployment _ _ _ _ _ _ _ _ _
            (surjective_pairing run) Hin _ _ Hnone); [reflexivity|discriminate].
Defined.

(** C5 as stated fails: the deployment ends in the phase [error], the status
    update with the state [error] is sent, for the record the handler
    created, and fails, and [Handle] returns an error. *)
Lemma Handle_fails_when_failure_report_fails :
  let W := exampleWorld [] DeploymentPhase_Error (Some (External "bad gateway"))
             exampleInitial neverDone in
  let run := Handle W (exampleDecoders (exampleEvent actionOpened 1001)) 5
               "payload" [] in
  let d := {| DeploymentID := "dep-1"; Phase := DeploymentPhase_Error |} in
  DoAppsGetDeployment "app-1" "dep-1" (Value (Some d)) ∈ run.2 /\
  isInTerminalPhase (Some d) = true /\
  recordsCreated run.2
  = [({| Ref := "feature"; AutoMerge := false;
         Environment := "acme-widgets-42"; RequiredContexts := [];
         RequestPayload := {| AppID := "app-1" |} |},
      Value (Some {| GhID := 7; Payload := "app-1" |}))] /\
  statusUpdates run.2
  = [(7%Z, {| State := Some deploymentStateError;
              EnvironmentURL := None;
              AutoInactive := Some true |})] /\
  run.1 = Returned
            (Some (Errorf "failed to propagate deployment status"
                     (Errorf "failed to update deployment with failure"
                        (External "bad gateway")))).
Proof.
  cbv zeta. split; [vm_compute; do 6 right; left|]. repeat split.
Qed.

(** C6, as the code has it: on a [closed] event for which the
    source-control platform lists a deployment record, what the handler does
    depends on the first listed record.  When its payload decodes, the
    handler deletes the app the payload names and then, only when the
    deletion succeeded, marks that record inactive; nothing follows, so a
    deletion is never undone.  When the deletion succeeds and the status
    update fails, [Handle] returns the failure of the update, wrapped as a
    failure to update the deployment.  When the payload does not decode,
    [Handle] returns the failure of the decoder, wrapped, and has neither
    deleted the app nor updated the record; a first entry that is nil makes
    it panic. *)
Theorem Handle_closed_deletes_then_marks_inactive W D fuel payload event out t
    owner repo environment record rest :
  unmarshalEvent D payload = Value event ->
  Action event = actionClosed ->
  Handle W D fuel payload [] = (out, t) ->
  GhListDeployments owner repo environment (Value (record :: rest)) ∈ t ->
  let listing :=
    [NewInstallationClient (InstallationID event) None;
     GhListDeployments owner repo environment (Value (record :: rest))] in
  match record with
  | None => t = listing /\ out = Panicked
  | Some record0 =>
      match unmarshalPayload D (Payload record0) with
      | Failure err =>
          t = listing /\
          out = Returned (Some (Errorf "failed to parse deployment payload" err))
      | Value p =>
          exists deleteErr,
            let deletion :=
              listing ++ [Log "info" "deleting app as the PR was closed";
                          DoAppsDelete (AppID p) deleteErr] in
            match deleteErr with
            | Some err =>
                t = deletion /\
                out = Returned (Some (Errorf "failed to delete app" err))
            | None =>
                exists statusErr,
                  t = deletion
                      ++ [GhCreateDeploymentStatus owner repo (GhID record0)
                            {| State := Some deploymentStateInactive;
                               EnvironmentURL := None;
                               AutoInactive := Some true |} statusErr] /\
                  out = Returned
                          match statusErr with
                          | Some err =>
                              Some (Errorf "failed to update deployment" err)
                          | None => None
                          end
            end
      end
  end.
Proof.
  intros Hparse Hact Hrun Hin. cbv zeta.
  run_handle Hrun; wrong_path Hact (@eq_refl Z 0%Z); split_membership;
    try match goal with
        | Hw : propagateRun _ _ _ _ _ ?tw _, H : _ ∈ ?tw |- _ =>
            apply propagateRun_events in Hw; rewrite Forall_forall in Hw;
            apply Hw in H; discriminate H
        end.
  all: try done.
  all: try (exfalso; congruence).
  all: match goal with
       | Hq : unmarshalPayload ?D ?raw = _,
         Hq' : unmarshalPayload ?D ?raw = _ |- _ =>
           rewrite Hq in Hq'; simplify_eq
       end.
  all: try done.
  - by exists (Some e).
  - exists None. by exists (Some e).
  - exists None. by exists None.
Qed.

(** A [closed] event whose deletion succeeds and whose status update
    fails. *)
Lemma Handle_closed_deletes_then_marks_inactive_witness :
  let W := exampleWorld [exampleRecord] DeploymentPhase_Active
             (Some (External "bad gateway")) exampleInitial neverDone in
  let event := exampleEvent actionClosed 1001 in
  let run := Handle W (exampleDecoders event) 5 "payload" [] in
  let listed :=
    GhListDeployments "acme" "widgets" "acme-widgets-42"
      (Value [Some {| GhID := 3; Payload := "app-1" |}]) in
  listed ∈ run.2 /\
  exists deleteErr,
    let deletion :=
      [NewInstallationClient 5 None; listed;
       Log "info" "deleting app as the PR was closed";
       DoAppsDelete "app-1" deleteErr] in
    match deleteErr with
    | Some err =>
        run.2 = deletion /\
        run.1 = Returned (Some (Errorf "failed to delete app" err))
    | None =>
        exists statusErr,
          run.2 = deletion
                  ++ [GhCreateDeploymentStatus "acme" "widgets" 3
                        {| State := Some deploymentStateInactive;
                           EnvironmentURL := None;
                           AutoInactive := Some true |} statusErr] /\
          run.1 = Returned
                    match statusErr with
                    | Some err => Some (Errorf "failed to update deployment" err)
                    | None => None
                    end
    end.
Proof.
  cbv zeta.
  set (run := Handle _ _ _ _ _).
  assert (Hin : GhListDeployments "acme" "widgets" "acme-widgets-42"
                  (Value [Some {| GhID := 3; Payload := "app-1" |}]) ∈ run.2).
  { vm_compute. right. left. }
  split; [exact Hin|].
  exact (Handle_closed_deletes_then_marks_inactive
           (exampleWorld [exampleRecord] DeploymentPhase_Active
              (Some (External "bad gateway")) exampleInitial neverDone)
           (exampleDecoders (exampleEvent actionClosed 1001)) 5 "payload"
           (exampleEvent actionClosed 1001) run.1 run.2 _ _ _ _ _
           eq_refl eq_refl (surjective_pairing run) Hin).
Defined.

(** C6 as stated fails: a [closed] event of a pull request that is not from
    a fork, for which a deployment record is listed whose payload does not
    decode.  [Handle] returns the failure of the decoder after the listing:
    the app is not deleted and the record is not marked inactive. *)
Lemma Handle_closed_keeps_app_of_foreign_record :
  let W := exampleWorld [foreignRecord] DeploymentPhase_Active None
             exampleInitial neverDone in
  let event := exampleEvent actionClosed 1001 in
  let run := Handle W (jsonDecoders event) 5 "payload" [] in
  Action event = actionClosed /\
  RepoID event = HeadRepoID event /\
  run = (Returned (Some (Errorf "failed to parse deployment payload"
                           (External "invalid character"))),
         [NewInstallationClient 5 None;
          GhListDeployments "acme" "widgets" "acme-widgets-42"
            (Value [Some {| GhID := 4; Payload := "app-1" |}])]) /\
  statusUpdates run.2 = [].
Proof. cbv zeta. repeat split. Qed.

(** C7, as the code has it.  On a [closed] event the handler asks the
    platform neither for a deployment nor for an app.  On a [synchronize]
    event it creates no app, and asks for a deployment exactly once, for the
    app of the first listed deployment record, when there is such a record
    and its payload decodes, and not at all when the list is empty.  On an
    [opened] or [reopened] event the deployment comes with the app: the
    handler asks for no deployment itself and creates at most one app; the
    only deployment it follows is the first of those the platform lists for
    the app it created; and when the handling of a pull request that is not
    from a fork succeeds, it has created one app, read the list of its
    deployments and followed the first of them. *)
Theorem Handle_triggers_deployments W D fuel payload event out t :
  unmarshalEvent D payload = Value event ->
  Handle W D fuel payload [] = (out, t) ->
  (Action event = actionClosed ->
   deploymentsTriggered t = [] /\ appsCreated t = []) /\
  (Action event = actionSynchronize ->
   appsCreated t = [] /\
   (forall owner repo environment record rest p,
       GhListDeployments owner repo environment (Value (Some record :: rest)) ∈ t ->
       unmarshalPayload D (Payload record) = Value p ->
       deploymentsTriggered t = [AppID p]) /\
   (forall owner repo environment,
       GhListDeployments owner repo environment (Value []) ∈ t ->
       deploymentsTriggered t = [])) /\
  (Action event = actionOpened \/ Action event = actionReopened ->
   deploymentsTriggered t = [] /\
   length (appsCreated t) <= 1 /\
   (forall a i r,
       DoAppsGetDeployment a i r ∈ t ->
       exists spec app d ds,
         appsCreated t = [(spec, Value (Some app))] /\
         DoAppsListDeployments (ID app) (Value (d :: ds)) ∈ t /\
         a = ID app /\ i = GetDeploymentID d) /\
   (RepoID event = HeadRepoID event ->
    out = Returned None ->
    exists spec app d ds r,
      appsCreated t = [(spec, Value (Some app))] /\
      DoAppsListDeployments (ID app) (Value (d :: ds)) ∈ t /\
      DoAppsGetDeployment (ID app) (GetDeploymentID d) r ∈ t)).
Proof.
  intros Hparse Hrun.
  assert (Hquiet : forall o r a i g tw out',
             propagateRun o r a i g tw out' ->
             appsCreated tw = [] /\ deploymentsTriggered tw = [] /\
             forall e, e ∈ tw -> isWaitEvent e = true).
  { intros o r a i g tw out' Hw%propagateRun_events.
    destruct (wait_events_create_nothing _ Hw) as (Ha & Hd & _).
    rewrite Forall_forall in Hw. auto. }
  split; [|split].
  - intros Hact. run_handle Hrun; wrong_path Hact (@eq_refl Z 0%Z);
      split; reflexivity.
  - intros Hact.
    run_handle Hrun; wrong_path Hact (@eq_refl Z 0%Z);
      try match goal with
          | Hw : propagateRun _ _ _ _ _ _ _ |- _ =>
              destruct (Hquiet _ _ _ _ _ _ _ Hw) as (Ha & Hd & Hev)
          end;
      cbn [appsCreated deploymentsTriggered]; rewrite ?Ha, ?Hd;
      (split; [done|]); split.
    all: intros; split_membership;
      try match goal with
          | Hev : forall e, e ∈ ?tw -> isWaitEvent e = true, H : _ ∈ ?tw |- _ =>
              apply Hev in H; discriminate H
          end;
      try congruence.
  - intros Hact.
    run_handle Hrun; destruct Hact as [Hact|Hact];
      wrong_path Hact (@eq_refl Z 0%Z);
      try match goal with
          | Hw : propagateRun _ _ _ _ _ _ _ |- _ =>
              destruct (Hquiet _ _ _ _ _ _ _ Hw) as (Ha & Hd & Hev);
              destruct (propagateRun_follows _ _ _ _ _ _ _ Hw) as (Hids & Hsome)
          end;
      cbn [appsCreated deploymentsTriggered]; rewrite ?Ha, ?Hd;
      cbn [length];
      (split; [done|]); (split; [lia|]); split.
    all: try (intros ? ? ? ?; split_membership;
              match goal with
              | H : _ ∈ _ |- _ => destruct (Hids _ _ _ H) as [-> ->]
              end;
              eexists _, _, _, _; (split; [reflexivity|]);
              (split; [rewrite !elem_of_cons; by auto 10|]); by split).
    all: intros Hsame Hout; try discriminate Hout;
      try (exfalso;
           match goal with
           | H : negb (RepoID _ =? HeadRepoID _)%Z = true |- _ =>
               rewrite Hsame, Z.eqb_refl in H; discriminate H
           end).
    all: destruct (Hsome _ eq_refl) as [r' Hr'];
      eexists _, _, _, _, r'; (split; [reflexivity|]);
      rewrite !elem_of_cons; split; by auto 10.
Qed.

(** A [synchronize] event of a pull request with a deployment record, and
    an [opened] event of the same pull request, both handled with success. *)
Lemma Handle_triggers_deployments_witness :
  let W := exampleWorld [exampleRecord] DeploymentPhase_Active None
             exampleInitial neverDone in
  let synchronized :=
    Handle W (exampleDecoders (exampleEvent actionSynchronize 1001)) 5
      "payload" [] in
  let opened :=
    Handle W (exampleDecoders (exampleEvent actionOpened 1001)) 5
      "payload" [] in
  GhListDeployments "acme" "widgets" "acme-widgets-42"
    (Value [Some {| GhID := 3; Payload := "app-1" |}]) ∈ synchronized.2 /\
  appsCreated synchronized.2 = [] /\
  deploymentsTriggered synchronized.2 = ["app-1"] /\
  opened.1 = Returned None /\
  deploymentsTriggered opened.2 = [] /\
  exists spec app d ds r,
    appsCreated opened.2 = [(spec, Value (Some app))] /\
    DoAppsListDeployments (ID app) (Value (d :: ds)) ∈ opened.2 /\
    DoAppsGetDeployment (ID app) (GetDeploymentID d) r ∈ opened.2.
Proof.
  cbv zeta.
  set (synchronized := Handle _ (exampleDecoders (exampleEvent actionSynchronize _))
                         _ _ _).
  set (opened := Handle _ (exampleDecoders (exampleEvent actionOpened _)) _ _ _).
  assert (Hin : GhListDeployments "acme" "widgets" "acme-widgets-42"
                  (Value [Some {| GhID := 3; Payload := "app-1" |}])
                ∈ synchronized.2).
  { vm_compute. right. left. }
  split; [exact Hin|].
  destruct (Handle_triggers_deployments
              (exampleWorld [exampleRecord] DeploymentPhase_Active None
                 exampleInitial neverDone)
              (exampleDecoders (exampleEvent actionSynchronize 1001)) 5 "payload"
              (exampleEvent actionSynchronize 1001) synchronized.1 synchronized.2
              eq_refl (surjective_pairing synchronized)) as (_ & Hsync & _).
  destruct (Hsync eq_refl) as (Hnoapp & Hone & _).
  split; [exact Hnoapp|].
  split; [exact (Hone _ _ _ _ _ {| AppID := "app-1" |} Hin eq_refl)|].
  destruct (Handle_triggers_deployments
              (exampleWorld [exampleRecord] DeploymentPhase_Active None
                 exampleInitial neverDone)
              (exampleDecoders (exampleEvent actionOpened 1001)) 5 "payload"
              (exampleEvent actionOpened 1001) opened.1 opened.2
              eq_refl (surjective_pairing opened)) as (_ & _ & Hopened).
  destruct (Hopened (or_introl eq_refl)) as (Hnone & _ & _ & Hfollowed).
  split; [reflexivity|].
  split; [exact Hnone|].
  exact (Hfollowed eq_refl eq_refl).
Defined.

(** C7 as stated fails: a [synchronize] event of a pull request that is not
    from a fork, every call succeeding, after which the platform was asked
    for no deployment, since no deployment record is listed. *)
Lemma Handle_synchronize_without_record :
  let W := exampleWorld [] DeploymentPhase_Active None exampleInitial neverDone in
  let event := exampleEvent actionSynchronize 1001 in
  let run := Handle W (exampleDecoders event) 5 "payload" [] in
  Action event = actionSynchronize /\
  RepoID event = HeadRepoID event /\
  run = (Returned None,
         [NewInstallationClient 5 None;
          GhListDeployments "acme" "widgets" "acme-widgets-42" (Value [])]) /\
  deploymentsTriggered run.2 = [].
Proof. cbv zeta. repeat split. Qed.

(** * Further properties of the code *)

(** ** The environment identity without hyphens *)

Definition hyphen : Ascii.ascii := Ascii.Ascii true false true true false true false false.

(** Whether the character [c] occurs in [s]. *)
Fixpoint occurs (c : Ascii.ascii) (s : string) : bool :=
  match s with
  | EmptyString => false
  | String c' s' => Ascii.eqb c' c || occurs c s'
  end.

Lemma split_at_first_hyphen (s1 r1 s2 r2 : string) :
  occurs hyphen s1 = false -> occurs hyphen s2 = false ->
  (s1 ++ "-" ++ r1 = s2 ++ "-" ++ r2)%string ->
  s1 = s2 /\ r1 = r2.
Proof.
  revert s2. induction s1 as [|c1 s1 IH]; intros [|c2 s2]; simpl;
    intros H1 H2 E.
  - by injection E as ->.
  - injection E as <- _. discriminate H2.
  - injection E as -> _. discriminate H1.
  - injection E as -> E.
    apply orb_false_iff in H1 as [_ H1]. apply orb_false_iff in H2 as [_ H2].
    by destruct (IH s2 H1 H2 E) as [-> ->].
Qed.

(** X1: The identity tells pull requests apart as long as neither the owner nor
    the repository name holds a hyphen: the collisions of [appName] all come
    from hyphens inside the parts. *)
Theorem appName_injective_without_hyphens owner1 repo1 n1 owner2 repo2 n2 :
  occurs hyphen owner1 = false -> occurs hyphen repo1 = false ->
  occurs hyphen owner2 = false -> occurs hyphen repo2 = false ->
  appName owner1 repo1 n1 = appName owner2 repo2 n2 ->
  (owner1, repo1, n1) = (owner2, repo2, n2).
Proof.
  unfold appName. intros Ho1 Hr1 Ho2 Hr2 E.
  apply split_at_first_hyphen in E as [-> E]; [|done|done].
  apply split_at_first_hyphen in E as [-> E]; [|done|done].
  by apply formatInt_inj in E as ->.
Qed.

Lemma appName_injective_without_hyphens_witness :
  ("acme", "widgets", 42%Z) = ("acme", "widgets", 42%Z).
Proof.
  exact (appName_injective_without_hyphens "acme" "widgets" 42 "acme" "widgets" 42
           eq_refl eq_refl eq_refl eq_refl eq_refl).
Defined.

(** ** The PR-scoped app spec as a whole *)

(** X2: The gathering and the walk of lines 199 to 224 amount to one pass over
    the services, the workers and the jobs; the static sites and the
    functions, which are never gathered, keep their sources as they are, also
    those of the PR's repository. *)
Theorem prScopedSpec_closed_form repoOwner repoName prBranch name spec :
  prScopedSpec repoOwner repoName prBranch name spec
  = let pin := pinComponent (repoFullName repoOwner repoName) prBranch in
    {| Name := name;
       Services := pin <$> Services spec;
       StaticSites := StaticSites spec;
       Workers := pin <$> Workers spec;
       Jobs := pin <$> Jobs spec;
       Functions := Functions spec;
       Domains := [];
       Alerts := [] |}.
Proof.
  cbv zeta. unfold prScopedSpec.
  set (spec1 := {| Name := name; Services := Services spec |}).
  set (full := repoFullName repoOwner repoName).
  destruct (walk_untouched full prBranch (githubRefs spec1) spec1)
    as (Hn & Hs & Hf & Hd & Ha).
  destruct (walk_all_gathered full prBranch spec1) as (Hsv & Hw & Hj).
  destruct (fold_left (pinAt full prBranch) (githubRefs spec1) spec1).
  simpl in *. by subst.
Qed.

(** X3: Transforming a transformed spec again, for the same pull request,
    changes nothing. *)
Theorem prScopedSpec_idempotent repoOwner repoName prBranch name spec :
  prScopedSpec repoOwner repoName prBranch name
    (prScopedSpec repoOwner repoName prBranch name spec)
  = prScopedSpec repoOwner repoName prBranch name spec.
Proof.
  rewrite !prScopedSpec_closed_form. cbv zeta. cbn [Services Workers Jobs
    StaticSites Functions].
  rewrite <- !list_fmap_compose.
  f_equal; apply list_fmap_ext; intros i c _; apply pinComponent_idemp.
Qed.

(** ** More on the pollers *)

Section PollFailures.

Context {St : Type}.
Variable fetched : result (option St) -> Event.
Variable satisfied : option St -> bool.
Variable wrap : error -> error.

Hypothesis fetched_inj : forall r r', fetched r = fetched r' -> r = r'.
Hypothesis fetched_not_select : forall r done, fetched r <> Select done.

(** A failed fetch ends the poll on the spot. *)
Lemma pollRun_after_failure tp out t1 err t2 :
  pollRun fetched satisfied wrap tp out ->
  tp = t1 ++ fetched (Failure err) :: t2 ->
  t2 = [] /\ out = Returned (Failure (wrap err)).
Proof.
  intros H. revert t1. induction H as [err0|s0 e|s0 Hs0|s0 tp out Hs0 H IH|];
    intros t1 E.
  - destruct t1 as [|x [|y t1]]; simplify_eq/=.
    apply fetched_inj in H. by simplify_eq.
  - destruct t1 as [|x [|y [|z t1]]]; simplify_eq/=.
    + apply fetched_inj in H. discriminate.
    + by edestruct fetched_not_select.
  - destruct t1 as [|x [|y [|z t1]]]; simplify_eq/=.
    + apply fetched_inj in H. discriminate.
    + by edestruct fetched_not_select.
  - destruct t1 as [|x [|y t1]]; simplify_eq/=.
    + apply fetched_inj in H0. discriminate.
    + by edestruct fetched_not_select.
    + by eapply IH.
  - destruct t1; discriminate.
Qed.

(** The context being done ends the poll on the spot. *)
Lemma pollRun_after_done tp out t1 ctxErr t2 :
  pollRun fetched satisfied wrap tp out ->
  tp = t1 ++ Select (Some ctxErr) :: t2 ->
  t2 = [] /\ out = Returned (Failure ctxErr).
Proof.
  intros H. revert t1. induction H as [err0|s0 e|s0 Hs0|s0 tp out Hs0 H IH|];
    intros t1 E.
  - destruct t1 as [|x [|y t1]]; simplify_eq/=.
    by edestruct fetched_not_select.
  - destruct t1 as [|x [|y [|z t1]]]; simplify_eq/=; [|done].
    by edestruct fetched_not_select.
  - destruct t1 as [|x [|y [|z t1]]]; simplify_eq/=.
    by edestruct fetched_not_select.
  - destruct t1 as [|x [|y t1]]; simplify_eq/=.
    + by edestruct fetched_not_select.
    + by eapply IH.
  - destruct t1; discriminate.
Qed.

End PollFailures.

(** X4: Neither poller retries a failed fetch: the failure is the last event of
    the poll, no wait follows it, and the poller returns it wrapped. *)
Theorem pollers_give_up_on_failed_fetch W fuel appID deploymentID :
  (forall t0 out t t1 err t2,
      waitForDeploymentTerminal W fuel appID deploymentID t0 = (out, t) ->
      t = t0 ++ t1 ++ DoAppsGetDeployment appID deploymentID (Failure err) :: t2 ->
      t2 = [] /\
      out = Returned (Failure (Errorf "failed to get deployment" err))) /\
  (forall t0 out t t1 err t2,
      waitForAppLiveURL W fuel appID t0 = (out, t) ->
      t = t0 ++ t1 ++ DoAppsGet appID (Failure err) :: t2 ->
      t2 = [] /\
      out = Returned (Failure (Errorf "failed to get deployment" err))).
Proof.
  split; intros t0 out t t1 err t2 Hrun Ht.
  - destruct (waitForDeploymentTerminal_run W fuel appID deploymentID t0)
      as (out' & tp & E & Hp).
    rewrite E in Hrun. injection Hrun as -> <-. apply app_inv_head in Ht.
    eapply pollRun_after_failure; [| |exact Hp|exact Ht].
    + intros r r' H. by injection H.
    + intros r done H. discriminate H.
  - destruct (waitForAppLiveURL_run W fuel appID t0) as (out' & tp & E & Hp).
    rewrite E in Hrun. injection Hrun as -> <-. apply app_inv_head in Ht.
    eapply pollRun_after_failure; [| |exact Hp|exact Ht].
    + intros r r' H. by injection H.
    + intros r done H. discriminate H.
Qed.

(** A world in which the platform does not answer. *)
Definition failingWorld : World :=
  {| newInstallationClient := fun _ _ => None;
     ghListDeployments := fun _ _ _ _ => Value [];
     ghCreateDeployment := fun _ _ _ _ => Value None;
     ghCreateDeploymentStatus := fun _ _ _ _ _ => None;
     ghGetContents := fun _ _ _ _ _ => Failure (External "not found");
     doAppsCreate := fun _ _ => Failure (External "unavailable");
     doAppsDelete := fun _ _ => Some (External "unavailable");
     doAppsCreateDeployment := fun _ _ => Failure (External "unavailable");
     doAppsListDeployments := fun _ _ => Failure (External "unavailable");
     doAppsGetDeployment := fun _ _ _ => Failure (External "unavailable");
     doAppsGet := fun _ _ => Failure (External "unavailable");
     ctxDone := neverDone |}.

Lemma pollers_give_up_on_failed_fetch_witness :
  let run := waitForDeploymentTerminal failingWorld 5 "app-1" "dep-1" [] in
  run.2 = [] ++ [] ++ [DoAppsGetDeployment "app-1" "dep-1"
                         (Failure (External "unavailable"))] /\
  @nil Event = [] /\
  run.1 = Returned (Failure (Errorf "failed to get deployment"
                               (External "unavailable"))).
Proof.
  cbv zeta. split; [reflexivity|].
  exact (proj1 (pollers_give_up_on_failed_fetch failingWorld 5 "app-1" "dep-1")
           [] _ _ [] (External "unavailable") []
           (surjective_pairing _) eq_refl).
Defined.

(** X5: What a poller returns as a state satisfies its test, so that it is not
    a nil pointer, and it is the state of the last fetch, after which the
    ticker fired. *)
Theorem pollers_return_satisfying_states W fuel appID deploymentID :
  (forall t0 d t,
      waitForDeploymentTerminal W fuel appID deploymentID t0
      = (Returned (Value d), t) ->
      isInTerminalPhase d = true /\ d <> None /\
      exists t1,
        t = t0 ++ t1 ++ [DoAppsGetDeployment appID deploymentID (Value d);
                         Select None]) /\
  (forall t0 a t,
      waitForAppLiveURL W fuel appID t0 = (Returned (Value a), t) ->
      GetLiveURL a <> EmptyString /\ a <> None /\
      exists t1, t = t0 ++ t1 ++ [DoAppsGet appID (Value a); Select None]).
Proof.
  split.
  - intros t0 d t Hrun.
    destruct (waitForDeploymentTerminal_run W fuel appID deploymentID t0)
      as (out' & tp & E & Hp).
    rewrite E in Hrun. injection Hrun as -> <-.
    apply pollRun_returned in Hp as (Hd & t1 & ->).
    split; [done|]. split; [by intros ->|]. by exists t1.
  - intros t0 a t Hrun.
    destruct (waitForAppLiveURL_run W fuel appID t0) as (out' & tp & E & Hp).
    rewrite E in Hrun. injection Hrun as -> <-.
    apply pollRun_returned in Hp as (Ha & t1 & ->).
    assert (Hurl : GetLiveURL a <> EmptyString).
    { intros Hu. rewrite Hu in Ha. discriminate Ha. }
    split; [done|]. split; [by intros ->|]. by exists t1.
Qed.

Lemma pollers_return_satisfying_states_witness :
  let W := exampleWorld [] DeploymentPhase_Canceled None exampleInitial neverDone in
  let d := Some {| DeploymentID := "dep-1"; Phase := DeploymentPhase_Canceled |} in
  isInTerminalPhase d = true /\ d <> None /\
  exists t1,
    (waitForDeploymentTerminal W 5 "app-1" "dep-1" []).2
    = [] ++ t1 ++ [DoAppsGetDeployment "app-1" "dep-1" (Value d); Select None].
Proof.
  cbv zeta.
  exact (proj1 (pollers_return_satisfying_states
                  (exampleWorld [] DeploymentPhase_Canceled None exampleInitial
                     neverDone) 5 "app-1" "dep-1") [] _ _ eq_refl).
Defined.

(** X6: Neither poller bounds its patience: as long as the fetched state does not
    satisfy the test and the context is not done, it fetches again, whatever
    the number of rounds it has made.  In the model, every bound on the
    rounds is used up, with one fetch and one wait per round. *)
Theorem pollers_never_give_up W appID deploymentID :
  (forall t, ctxDone W t = None) ->
  (forall t, exists d, doAppsGetDeployment W t appID deploymentID = Value d /\
                       isInTerminalPhase d = false) ->
  (forall t, exists a, doAppsGet W t appID = Value a /\
                       GetLiveURL a = EmptyString) ->
  forall fuel t0,
    (exists t, waitForDeploymentTerminal W fuel appID deploymentID t0
               = (OutOfFuel, t) /\ length t = length t0 + 2 * fuel) /\
    (exists t, waitForAppLiveURL W fuel appID t0 = (OutOfFuel, t) /\
               length t = length t0 + 2 * fuel).
Proof.
  intros Hctx Hdep Happ fuel t0. split.
  - unfold waitForDeploymentTerminal.
    assert (H : isInTerminalPhase None = false) by done. revert H.
    generalize (@None Deployment) as d. revert t0.
    induction fuel as [|fuel IH]; intros t0 d Hd; simpl; rewrite Hd.
    + exists t0. split; [done|lia].
    + unfold bind, call.
      destruct (Hdep t0) as (d' & -> & Hd'). rewrite Hctx.
      destruct (IH ((t0 ++ [DoAppsGetDeployment appID deploymentID (Value d')])
                      ++ [Select None]) d' Hd') as (t & -> & Hlen).
      exists t. split; [done|]. rewrite !length_app in Hlen. simpl in Hlen. lia.
  - unfold waitForAppLiveURL.
    assert (H : GetLiveURL None = EmptyString) by done. revert H.
    generalize (@None App) as a. revert t0.
    induction fuel as [|fuel IH]; intros t0 a Ha; simpl; rewrite Ha; simpl.
    + exists t0. split; [done|lia].
    + unfold bind, call.
      destruct (Happ t0) as (a' & -> & Ha'). rewrite Hctx.
      destruct (IH ((t0 ++ [DoAppsGet appID (Value a')]) ++ [Select None])
                  a' Ha') as (t & -> & Hlen).
      exists t. split; [done|]. rewrite !length_app in Hlen. simpl in Hlen. lia.
Qed.

(** A world in which the deployment stays in the building phase and the app
    never gets a URL. *)
Definition stuckWorld : World :=
  {| newInstallationClient := fun _ _ => None;
     ghListDeployments := fun _ _ _ _ => Value [];
     ghCreateDeployment := fun _ _ _ _ => Value None;
     ghCreateDeploymentStatus := fun _ _ _ _ _ => None;
     ghGetContents := fun _ _ _ _ _ => Failure (External "not found");
     doAppsCreate := fun _ _ => Failure (External "unavailable");
     doAppsDelete := fun _ _ => None;
     doAppsCreateDeployment := fun _ _ => Failure (External "unavailable");
     doAppsListDeployments := fun _ _ => Value [];
     doAppsGetDeployment := fun _ _ deploymentID =>
       Value (Some {| DeploymentID := deploymentID;
                      Phase := DeploymentPhase_Building |});
     doAppsGet := fun _ appID =>
       Value (Some {| ID := appID; LiveURL := EmptyString |});
     ctxDone := neverDone |}.

Lemma pollers_never_give_up_witness :
  (exists t, waitForDeploymentTerminal stuckWorld 7 "app-1" "dep-1" []
             = (OutOfFuel, t) /\ length t = length (@nil Event) + 2 * 7) /\
  (exists t, waitForAppLiveURL stuckWorld 7 "app-1" [] = (OutOfFuel, t) /\
             length t = length (@nil Event) + 2 * 7).
Proof.
  apply (pollers_never_give_up stuckWorld "app-1" "dep-1").
  - reflexivity.
  - intros t. by eexists.
  - intros t. by eexists.
Defined.

(** ** Failures in a transcript *)

(** [wraps err cause]: [cause] is [err] or is reached from [err] through the
    [%w] wrappings of [fmt.Errorf], as [errors.Is] follows them. *)
Inductive wraps : error -> error -> Prop :=
| wraps_here err : wraps err err
| wraps_inner msg err cause : wraps err cause -> wraps (Errorf msg err) cause.

Definition resultError {A} (r : result A) : option error :=
  match r with Value _ => None | Failure err => Some err end.

(** The error an event came back with: the [err] of a call, or [ctx.Err()]
    for a [select] that found the context done. *)
Definition eventError (e : Event) : option error :=
  match e with
  | NewInstallationClient _ err => err
  | GhListDeployments _ _ _ r => resultError r
  | GhCreateDeployment _ _ _ r => resultError r
  | GhCreateDeploymentStatus _ _ _ _ err => err
  | GhGetContents _ _ _ _ r => resultError r
  | DoAppsCreate _ r => resultError r
  | DoAppsDelete _ err => err
  | DoAppsCreateDeployment _ r => resultError r
  | DoAppsListDeployments _ r => resultError r
  | DoAppsGetDeployment _ _ r => resultError r
  | DoAppsGet _ r => resultError r
  | Select done => done
  | Log _ _ => None
  end.

Section PollFailureLast.

Context {St : Type}.
Variable fetched : result (option St) -> Event.
Variable satisfied : option St -> bool.
Variable msg : string.

Hypothesis fetched_error : forall r, eventError (fetched r) = resultError r.

(** In a poll, an event that came back with an error is the last one, and
    the poll returns that error, wrapped or as it is. *)
Lemma pollRun_failure_last tp out i e err :
  pollRun fetched satisfied (Errorf msg) tp out ->
  tp !! i = Some e ->
  eventError e = Some err ->
  S i = length tp /\
  exists err', out = Returned (Failure err') /\ wraps err' err.
Proof.
  intros H. revert i.
  induction H as [err0|s0 c|s0 Hs0|s0 tp out Hs0 H IH|]; intros i Hi He.
  - destruct i as [|[|i]]; simplify_eq/=. rewrite fetched_error in He.
    simplify_eq/=. split; [done|]. eexists. split; [done|]. by repeat constructor.
  - destruct i as [|[|[|i]]]; simplify_eq/=.
    + rewrite fetched_error in He. discriminate He.
    + split; [done|]. eexists. split; [done|]. constructor.
  - destruct i as [|[|[|i]]]; simplify_eq/=.
    rewrite fetched_error in He. discriminate He.
  - destruct i as [|[|i]]; simplify_eq/=.
    + rewrite fetched_error in He. discriminate He.
    + destruct (IH _ Hi He) as (Hlen & err' & -> & Hw).
      split; [by rewrite Hlen|]. by exists err'.
  - discriminate Hi.
Qed.

End PollFailureLast.

Lemma deploymentPoll_failure_last appID deploymentID tp out i e err :
  deploymentPoll appID deploymentID tp out ->
  tp !! i = Some e -> eventError e = Some err ->
  S i = length tp /\ exists err', out = Returned (Failure err') /\ wraps err' err.
Proof. by apply pollRun_failure_last. Qed.

Lemma liveURLPoll_failure_last appID tq out i e err :
  liveURLPoll appID tq out ->
  tq !! i = Some e -> eventError e = Some err ->
  S i = length tq /\ exists err', out = Returned (Failure err') /\ wraps err' err.
Proof. by apply pollRun_failure_last. Qed.

Lemma propagateRun_failure_last owner repo appID deploymentID gh tw out i e err :
  propagateRun owner repo appID deploymentID gh tw out ->
  tw !! i = Some e ->
  eventError e = Some err ->
  S i = length tw /\
  exists err', out = Returned (Some err') /\ wraps err' err.
Proof.
  intros Hrun Hi He.
  destruct Hrun as [tp err0 Hp|tp Hp|tp d' err0 Hp Hd'|tp d' tq err0 Hp Hd' Hq
                   |tp d' tq Hp Hd' Hq|tp d' tq app err0 Hp Hd' Hq].
  - destruct (deploymentPoll_failure_last _ _ _ _ _ _ _ Hp Hi He)
      as (Hlen & err' & E & Hw).
    simplify_eq. split; [done|]. eexists. split; [done|]. by constructor.
  - by destruct (deploymentPoll_failure_last _ _ _ _ _ _ _ Hp Hi He)
      as (_ & err' & E & _).
  - apply lookup_app_Some in Hi as [Hi|[Hge Hi]].
    + by destruct (deploymentPoll_failure_last _ _ _ _ _ _ _ Hp Hi He)
        as (_ & err' & E & _).
    + apply list_lookup_singleton_Some in Hi as [Hi <-]. simpl in He. subst err0.
      rewrite length_app. simpl. split; [lia|].
      eexists. split; [done|]. by repeat constructor.
  - apply lookup_app_Some in Hi as [Hi|[Hge Hi]].
    + by destruct (deploymentPoll_failure_last _ _ _ _ _ _ _ Hp Hi He)
        as (_ & err' & E & _).
    + destruct (liveURLPoll_failure_last _ _ _ _ _ _ Hq Hi He)
        as (Hlen & err' & E & Hw).
      simplify_eq. rewrite length_app. split; [lia|].
      eexists. split; [done|]. by constructor.
  - apply lookup_app_Some in Hi as [Hi|[Hge Hi]].
    + by destruct (deploymentPoll_failure_last _ _ _ _ _ _ _ Hp Hi He)
        as (_ & err' & E & _).
    + by destruct (liveURLPoll_failure_last _ _ _ _ _ _ Hq Hi He)
        as (_ & err' & E & _).
  - apply lookup_app_Some in Hi as [Hi|[Hge Hi]].
    + by destruct (deploymentPoll_failure_last _ _ _ _ _ _ _ Hp Hi He)
        as (_ & err' & E & _).
    + apply lookup_app_Some in Hi as [Hi|[Hge' Hi]].
      * by destruct (liveURLPoll_failure_last _ _ _ _ _ _ Hq Hi He)
          as (_ & err' & E & _).
      * apply list_lookup_singleton_Some in Hi as [Hi <-]. simpl in He.
        subst err0. rewrite !length_app. simpl. split; [lia|].
        eexists. split; [done|]. by repeat constructor.
Qed.

(** Walks an index through the events [Handle] made before
    [waitAndPropagate]. *)
Ltac walk_index i Hi He :=
  repeat (destruct i as [|i];
          [simpl in Hi; injection Hi as <-; simpl in He; simplify_eq
          |simpl in Hi]).

(** X10: There is no retry and no recovery: an event that came back with an
    error, a failed call or a [select] that found the context done, is the
    last event of the run, and [Handle] returns an error that wraps that
    error. *)
Theorem Handle_aborts_on_first_failure W D fuel payload out t i e err :
  Handle W D fuel payload [] = (out, t) ->
  t !! i = Some e ->
  eventError e = Some err ->
  S i = length t /\
  exists err', out = Returned (Some err') /\ wraps err' err.
Proof.
  intros Hrun Hi He. run_handle Hrun; walk_index i Hi He;
    try discriminate Hi;
    try (split; [done|]; eexists; split; [done|]; by repeat constructor).
  all: match goal with
       | Hw : propagateRun _ _ _ _ _ ?tw _ |- _ =>
           destruct (propagateRun_failure_last _ _ _ _ _ _ _ _ _ _ Hw Hi He)
             as (Hlen & err' & E & Hwr)
       end; simplify_eq.
  all: split; [simpl; lia|]; eexists; split; [done|]; by constructor.
Qed.

Lemma Handle_aborts_on_first_failure_witness :
  let run := Handle failingWorld (exampleDecoders (exampleEvent actionOpened 1001))
               5 "payload" [] in
  run.2 !! 1 = Some (GhGetContents "acme" "widgets" ".do/app.yaml" "feature"
                       (Failure (External "not found"))) /\
  2 = length run.2 /\
  exists err', run.1 = Returned (Some err') /\ wraps err' (External "not found").
Proof.
  cbv zeta. split; [reflexivity|].
  apply (Handle_aborts_on_first_failure failingWorld
           (exampleDecoders (exampleEvent actionOpened 1001)) 5 "payload" _ _ 1
           (GhGetContents "acme" "widgets" ".do/app.yaml" "feature"
              (Failure (External "not found")))
           (External "not found"));
    [apply surjective_pairing|reflexivity|reflexivity].
Defined.

(** ** More on [waitAndPropagate] *)

Lemma deploymentPoll_events appID deploymentID tp out e :
  deploymentPoll appID deploymentID tp out -> e ∈ tp ->
  (exists r, e = DoAppsGetDeployment appID deploymentID r) \/
  (exists done, e = Select done).
Proof.
  intros Hp%pollRun_events He. rewrite Forall_forall in Hp. by apply Hp.
Qed.

Lemma liveURLPoll_events appID tq out e :
  liveURLPoll appID tq out -> e ∈ tq ->
  (exists r, e = DoAppsGet appID r) \/ (exists done, e = Select done).
Proof.
  intros Hq%pollRun_events He. rewrite Forall_forall in Hq. by apply Hq.
Qed.

Lemma deploymentPoll_reports_nothing appID deploymentID tp out :
  deploymentPoll appID deploymentID tp out -> statusUpdates tp = [].
Proof.
  intros Hp%pollRun_events.
  by eapply (poll_events_report_nothing (DoAppsGetDeployment appID deploymentID)).
Qed.

Lemma liveURLPoll_reports_nothing appID tq out :
  liveURLPoll appID tq out -> statusUpdates tq = [].
Proof.
  intros Hq%pollRun_events.
  by eapply (poll_events_report_nothing (DoAppsGet appID)).
Qed.

Lemma deploymentPoll_done appID deploymentID tp out ctxErr :
  deploymentPoll appID deploymentID tp out -> Select (Some ctxErr) ∈ tp ->
  out = Returned (Failure ctxErr).
Proof.
  intros Hp (t1 & t2 & ->)%list_elem_of_split.
  eapply pollRun_after_done; [|exact Hp|done]. intros r done H. discriminate H.
Qed.

Lemma liveURLPoll_done appID tq out ctxErr :
  liveURLPoll appID tq out -> Select (Some ctxErr) ∈ tq ->
  out = Returned (Failure ctxErr).
Proof.
  intros Hq (t1 & t2 & ->)%list_elem_of_split.
  eapply pollRun_after_done; [|exact Hq|done]. intros r done H. discriminate H.
Qed.

Lemma liveURLPoll_live appID tq out a :
  liveURLPoll appID tq out ->
  DoAppsGet appID (Value a) ∈ tq ->
  GetLiveURL a <> EmptyString ->
  (forall ctxErr, Select (Some ctxErr) ∉ tq) ->
  out = Returned (Value a).
Proof.
  intros Hq Hin Ha Hnone.
  eapply (pollRun_satisfied_member (DoAppsGet appID)); [| |exact Hq|exact Hin| |exact Hnone].
  - intros r r' H. by injection H.
  - intros r done H. discriminate H.
  - simpl. by destruct (String.eqb_spec (GetLiveURL a) EmptyString).
Qed.

Section PropagateFacts.

Variables owner repo appID deploymentID : string.
Variable gh : Z.
Variables (tw : Trace) (out : Outcome (option error)).
Hypothesis Hrun : propagateRun owner repo appID deploymentID gh tw out.

Lemma propagateRun_not_panicked : out <> Panicked.
Proof. by destruct Hrun. Qed.

(** The fetches are for the app and the deployment the closure was given. *)
Lemma propagateRun_fetches e :
  e ∈ tw ->
  (forall a i r, e = DoAppsGetDeployment a i r -> a = appID /\ i = deploymentID) /\
  (forall a r, e = DoAppsGet a r -> a = appID).
Proof.
  intros He.
  assert (Hd : forall tp o, deploymentPoll appID deploymentID tp o -> e ∈ tp ->
                 (forall a i r, e = DoAppsGetDeployment a i r ->
                                a = appID /\ i = deploymentID) /\
                 (forall a r, e = DoAppsGet a r -> a = appID)).
  { intros tp o Hp Hin.
    destruct (deploymentPoll_events _ _ _ _ _ Hp Hin) as [[r ->]|[done ->]];
      split; intros; by simplify_eq. }
  assert (Ha : forall tq o, liveURLPoll appID tq o -> e ∈ tq ->
                 (forall a i r, e = DoAppsGetDeployment a i r ->
                                a = appID /\ i = deploymentID) /\
                 (forall a r, e = DoAppsGet a r -> a = appID)).
  { intros tq o Hq Hin.
    destruct (liveURLPoll_events _ _ _ _ Hq Hin) as [[r ->]|[done ->]];
      split; intros; by simplify_eq. }
  destruct Hrun; repeat (apply elem_of_app in He as [He|He]); eauto;
    apply list_elem_of_singleton in He as ->; split; intros; discriminate.
Qed.

(** A status update of the closure is for the record the closure was given,
    and is either the report of a failure, without a URL, or the report of
    a success, with a URL that is not empty. *)
Lemma propagateRun_statuses o r id req err :
  GhCreateDeploymentStatus o r id req err ∈ tw ->
  o = owner /\ r = repo /\ id = gh /\
  (req = {| State := Some deploymentStateError;
            EnvironmentURL := None;
            AutoInactive := Some true |} \/
   exists url,
     url <> EmptyString /\
     req = {| State := Some deploymentStateSuccess;
              EnvironmentURL := Some url;
              AutoInactive := Some true |}).
Proof.
  intros He.
  assert (Hd : forall tp o', deploymentPoll appID deploymentID tp o' ->
                 GhCreateDeploymentStatus o r id req err ∉ tp).
  { intros tp o' Hp Hin.
    by destruct (deploymentPoll_events _ _ _ _ _ Hp Hin) as [[? ?]|[? ?]]. }
  assert (Ha : forall tq o', liveURLPoll appID tq o' ->
                 GhCreateDeploymentStatus o r id req err ∉ tq).
  { intros tq o' Hq Hin.
    by destruct (liveURLPoll_events _ _ _ _ Hq Hin) as [[? ?]|[? ?]]. }
  destruct Hrun as [tp err0 Hp|tp Hp|tp d' err0 Hp Hd'|tp d' tq err0 Hp Hd' Hq
                   |tp d' tq Hp Hd' Hq|tp d' tq app err0 Hp Hd' Hq];
    repeat (apply elem_of_app in He as [He|He]);
    try (by edestruct Hd); try (by edestruct Ha).
  - apply list_elem_of_singleton in He. injection He as -> -> -> -> ->.
    repeat split. by left.
  - apply list_elem_of_singleton in He. injection He as -> -> -> -> ->.
    repeat split. right. exists (LiveURL app). split; [|done].
    apply pollRun_returned in Hq as [Hq _]. simpl in Hq.
    by destruct (String.eqb_spec (LiveURL app) EmptyString).
Qed.

(** When the context is found done, nothing is reported. *)
Lemma propagateRun_cancelled ctxErr :
  Select (Some ctxErr) ∈ tw -> statusUpdates tw = [].
Proof.
  intros He.
  destruct Hrun as [tp err0 Hp|tp Hp|tp d' err0 Hp Hd'|tp d' tq err0 Hp Hd' Hq
                   |tp d' tq Hp Hd' Hq|tp d' tq app err0 Hp Hd' Hq].
  - by eapply deploymentPoll_reports_nothing.
  - by eapply deploymentPoll_reports_nothing.
  - apply elem_of_app in He as [He|He].
    + by pose proof (deploymentPoll_done _ _ _ _ _ Hp He).
    + by apply list_elem_of_singleton in He.
  - rewrite statusUpdates_app.
    by erewrite deploymentPoll_reports_nothing, liveURLPoll_reports_nothing.
  - rewrite statusUpdates_app.
    by erewrite deploymentPoll_reports_nothing, liveURLPoll_reports_nothing.
  - apply elem_of_app in He as [He|He].
    + by pose proof (deploymentPoll_done _ _ _ _ _ Hp He).
    + apply elem_of_app in He as [He|He].
      * by pose proof (liveURLPoll_done _ _ _ _ Hq He).
      * by apply list_elem_of_singleton in He.
Qed.

(** When the poll for the live URL has fetched an app with a URL and the
    context is never done, the closure ends with the report of the success,
    its only status update, which carries that URL. *)
Lemma propagateRun_successful a app :
  DoAppsGet a (Value (Some app)) ∈ tw ->
  LiveURL app <> EmptyString ->
  (forall ctxErr, Select (Some ctxErr) ∉ tw) ->
  exists tp err,
    tw = tp ++ [GhCreateDeploymentStatus owner repo gh
                  {| State := Some deploymentStateSuccess;
                     EnvironmentURL := Some (LiveURL app);
                     AutoInactive := Some true |} err] /\
    statusUpdates tp = [] /\
    out = Returned
            match err with
            | Some err => Some (Errorf "failed to update deployment" err)
            | None => None
            end.
Proof.
  intros He Hurl Hnone.
  assert (Hd : forall tp o', deploymentPoll appID deploymentID tp o' ->
                 DoAppsGet a (Value (Some app)) ∉ tp).
  { intros tp o' Hp Hin.
    by destruct (deploymentPoll_events _ _ _ _ _ Hp Hin) as [[? ?]|[? ?]]. }
  assert (Ha : forall tq o', liveURLPoll appID tq o' ->
                 DoAppsGet a (Value (Some app)) ∈ tq ->
                 (forall ctxErr, Select (Some ctxErr) ∉ tq) ->
                 o' = Returned (Value (Some app))).
  { intros tq o' Hq Hin Hn.
    destruct (liveURLPoll_events _ _ _ _ Hq Hin) as [[? E]|[? ?]]; [|done].
    injection E as -> _.
    by eapply liveURLPoll_live. }
  destruct Hrun as [tp err0 Hp|tp Hp|tp d' err0 Hp Hd'|tp d' tq err0 Hp Hd' Hq
                   |tp d' tq Hp Hd' Hq|tp d' tq app' err0 Hp Hd' Hq];
    repeat (apply elem_of_app in He as [He|He]);
    try (by edestruct Hd);
    try (by apply list_elem_of_singleton in He).
  - apply Ha in Hq; [done|done|].
    intros c Hc. apply (Hnone c), elem_of_app. by right.
  - apply Ha in Hq; [done|done|].
    intros c Hc. apply (Hnone c), elem_of_app. by right.
  - assert (E : Returned (Value (Some app')) = Returned (Value (Some app))).
    { eapply Ha; [exact Hq|done|].
      intros c Hc. apply (Hnone c). rewrite !elem_of_app. auto. }
    simplify_eq. exists (tp ++ tq), err0. rewrite <- app_assoc.
    split; [done|]. split; [|done]. rewrite statusUpdates_app.
    by erewrite deploymentPoll_reports_nothing, liveURLPoll_reports_nothing.
Qed.

End PropagateFacts.

(** ** More on [Handle] *)

(** X8: An action other than the four the handler deals with is dropped at once:
    [Handle] returns nil and its transcript is empty, without even a log
    line. *)
Theorem Handle_ignores_other_actions W D fuel payload event :
  unmarshalEvent D payload = Value event ->
  Action event <> actionOpened -> Action event <> actionReopened ->
  Action event <> actionClosed -> Action event <> actionSynchronize ->
  Handle W D fuel payload [] = (Returned None, []).
Proof.
  intros Hparse Ho Hr Hc Hs. unfold Handle, isHandledAction. rewrite Hparse.
  destruct (String.eqb_spec (Action event) actionOpened); [done|].
  destruct (String.eqb_spec (Action event) actionReopened); [done|].
  destruct (String.eqb_spec (Action event) actionClosed); [done|].
  by destruct (String.eqb_spec (Action event) actionSynchronize).
Qed.

Lemma Handle_ignores_other_actions_witness :
  Handle failingWorld (exampleDecoders (exampleEvent "labeled" 1001)) 5
    "payload" []
  = (Returned None, []).
Proof.
  apply (Handle_ignores_other_actions _ _ _ _ (exampleEvent "labeled" 1001));
    [reflexivity|discriminate..].
Defined.

(** X9: A [closed] or [synchronize] event of a pull request for which no
    deployment record is listed is a no-op: after the listing [Handle]
    returns nil, without any call to the platform. *)
Theorem Handle_does_nothing_without_records W D fuel payload out t
    owner repo environment :
  Handle W D fuel payload [] = (out, t) ->
  GhListDeployments owner repo environment (Value []) ∈ t ->
  out = Returned None /\
  exists installationID,
    t = [NewInstallationClient installationID None;
         GhListDeployments owner repo environment (Value [])].
Proof.
  intros Hrun Hin. run_handle Hrun; split_membership;
    try match goal with
        | Hw : propagateRun _ _ _ _ _ ?tw _, H : _ ∈ ?tw |- _ =>
            apply propagateRun_events in Hw; rewrite Forall_forall in Hw;
            apply Hw in H; discriminate H
        end.
  split; [done|]. by eexists.
Qed.

Lemma Handle_does_nothing_without_records_witness :
  let run := Handle failingWorld (exampleDecoders (exampleEvent actionClosed 1001))
               5 "payload" [] in
  run.1 = Returned None /\
  exists installationID,
    run.2 = [NewInstallationClient installationID None;
             GhListDeployments "acme" "widgets" "acme-widgets-42" (Value [])].
Proof.
  cbv zeta.
  apply (Handle_does_nothing_without_records failingWorld
           (exampleDecoders (exampleEvent actionClosed 1001)) 5 "payload");
    [apply surjective_pairing|].
  vm_compute. right. left.
Defined.

(** X11: When the context is found done during a wait, no status was or will be
    reported on the deployment record, and [Handle] returns an error that
    wraps the error of the context. *)
Theorem Handle_cancelled_reports_nothing W D fuel payload out t ctxErr :
  Handle W D fuel payload [] = (out, t) ->
  Select (Some ctxErr) ∈ t ->
  statusUpdates t = [] /\
  exists err, out = Returned (Some err) /\ wraps err ctxErr.
Proof.
  intros Hrun Hin. run_handle Hrun; split_membership.
  all: match goal with
       | Hw : propagateRun _ _ _ _ _ ?tw _ |- _ =>
           pose proof (propagateRun_cancelled _ _ _ _ _ _ _ Hw _ Hin) as Hs;
           apply list_elem_of_lookup in Hin as [i Hi];
           destruct (propagateRun_failure_last _ _ _ _ _ _ _ _ _ _ Hw Hi eq_refl)
             as (_ & err' & E & Hwr)
       end; simplify_eq.
  all: split; [exact Hs|]; eexists; split; [done|]; by constructor.
Qed.

Lemma Handle_cancelled_reports_nothing_witness :
  let W := exampleWorld [exampleRecord] DeploymentPhase_Active None
             exampleInitial alwaysDone in
  let run := Handle W (exampleDecoders (exampleEvent actionSynchronize 1001)) 5
               "payload" [] in
  Select (Some (External "context canceled")) ∈ run.2 /\
  statusUpdates run.2 = [] /\
  exists err, run.1 = Returned (Some err) /\
              wraps err (External "context canceled").
Proof.
  cbv zeta.
  set (run := Handle _ _ _ _ _).
  assert (Hin : Select (Some (External "context canceled")) ∈ run.2).
  { vm_compute. do 6 right. left. }
  split; [exact Hin|].
  exact (Handle_cancelled_reports_nothing _ _ _ _ _ _ _
           (surjective_pairing run) Hin).
Defined.

(** X12: In a run in which a fetch showed the app with a live URL and the context
    was never done, the handler ends with one status update, its only one,
    with the state [success] and that URL as the environment URL; [Handle]
    returns nil when that update succeeds, and the failure of the update,
    wrapped, when it does not. *)
Theorem Handle_reports_successful_deployment W D fuel payload out t a app :
  Handle W D fuel payload [] = (out, t) ->
  DoAppsGet a (Value (Some app)) ∈ t ->
  LiveURL app <> EmptyString ->
  (forall ctxErr, Select (Some ctxErr) ∉ t) ->
  exists t' owner repo record err,
    t = t' ++ [GhCreateDeploymentStatus owner repo record
                 {| State := Some deploymentStateSuccess;
                    EnvironmentURL := Some (LiveURL app);
                    AutoInactive := Some true |} err] /\
    statusUpdates t' = [] /\
    out = Returned
            match err with
            | Some err =>
                Some (Errorf "failed to propagate deployment status"
                        (Errorf "failed to update deployment" err))
            | None => None
            end.
Proof.
  intros Hrun Hin Hurl Hnone.
  run_handle Hrun; split_membership.
  all: match goal with
       | Hw : propagateRun _ _ _ _ _ ?tw _ |- _ =>
           assert (Hnone' : forall ctxErr, Select (Some ctxErr) ∉ tw)
             by (let c := fresh "ctxErr" in
                 intros c ?; apply (Hnone c); rewrite !elem_of_cons; auto 10);
           destruct (propagateRun_successful _ _ _ _ _ _ _ Hw _ _
                       Hin Hurl Hnone') as (tp & err & -> & Hs & E)
       end.
  all: destruct err; simplify_eq.
  all: rewrite !app_comm_cons; eexists _, _, _, _, _;
       (split; [reflexivity|]); split; [exact Hs|reflexivity].
Qed.

Lemma Handle_reports_successful_deployment_witness :
  let W := exampleWorld [] DeploymentPhase_Active None exampleInitial neverDone in
  let run := Handle W (exampleDecoders (exampleEvent actionOpened 1001)) 5
               "payload" [] in
  let app := {| ID := "app-1"; LiveURL := "https://pr-42.example.app" |} in
  DoAppsGet "app-1" (Value (Some app)) ∈ run.2 /\
  exists t' owner repo record err,
    run.2 = t' ++ [GhCreateDeploymentStatus owner repo record
                     {| State := Some deploymentStateSuccess;
                        EnvironmentURL := Some (LiveURL app);
                        AutoInactive := Some true |} err] /\
    statusUpdates t' = [] /\
    run.1 = Returned
              match err with
              | Some err =>
                  Some (Errorf "failed to propagate deployment status"
                          (Errorf "failed to update deployment" err))
              | None => None
              end.
Proof.
  cbv zeta.
  set (run := Handle _ _ _ _ _).
  assert (Hin : DoAppsGet "app-1"
                  (Value (Some {| ID := "app-1";
                                  LiveURL := "https://pr-42.example.app" |}))
                ∈ run.2).
  { vm_compute. do 8 right. left. }
  assert (Hnone : forall ctxErr, Select (Some ctxErr) ∉ run.2).
  { intros ctxErr Hc%list_elem_of_In. vm_compute in Hc.
    intuition discriminate. }
  split; [exact Hin|].
  refine (Handle_reports_successful_deployment _ _ _ _ _ _ _ _
            (surjective_pairing run) Hin _ Hnone). discriminate.
Defined.

(** Settles a membership in the transcript of [waitAndPropagate] that the
    events of the closure rule out. *)
Ltac not_a_wait_event :=
  try match goal with
      | Hw : propagateRun _ _ _ _ _ ?tw _, H : _ ∈ ?tw |- _ =>
          apply propagateRun_events in Hw; rewrite Forall_forall in Hw;
          apply Hw in H; discriminate H
      end.

(** X13: An app is deleted on a [closed] event only, and the app deleted is the
    one whose id the payload of the first listed deployment record holds. *)
Theorem Handle_deletes_only_on_closed W D fuel payload event out t appID err :
  unmarshalEvent D payload = Value event ->
  Handle W D fuel payload [] = (out, t) ->
  DoAppsDelete appID err ∈ t ->
  Action event = actionClosed /\
  exists owner repo environment record rest p,
    GhListDeployments owner repo environment (Value (Some record :: rest)) ∈ t /\
    unmarshalPayload D (Payload record) = Value p /\
    appID = AppID p.
Proof.
  intros Hparse Hrun Hin.
  run_handle Hrun; split_membership; not_a_wait_event.
  all: split; [by apply String.eqb_eq|];
       eexists _, _, _, _, _, _; split; [right; left|]; by split.
Qed.

Lemma Handle_deletes_only_on_closed_witness :
  let W := exampleWorld [exampleRecord] DeploymentPhase_Active None
             exampleInitial neverDone in
  let event := exampleEvent actionClosed 1001 in
  let run := Handle W (exampleDecoders event) 5 "payload" [] in
  DoAppsDelete "app-1" None ∈ run.2 /\
  Action event = actionClosed /\
  exists owner repo environment record rest p,
    GhListDeployments owner repo environment (Value (Some record :: rest))
    ∈ run.2 /\
    unmarshalPayload (exampleDecoders event) (Payload record) = Value p /\
    "app-1" = AppID p.
Proof.
  cbv zeta.
  set (run := Handle _ _ _ _ _).
  assert (Hin : DoAppsDelete "app-1" None ∈ run.2).
  { vm_compute. do 3 right. left. }
  split; [exact Hin|].
  exact (Handle_deletes_only_on_closed
           (exampleWorld [exampleRecord] DeploymentPhase_Active None
              exampleInitial neverDone)
           (exampleDecoders (exampleEvent actionClosed 1001)) 5 "payload"
           (exampleEvent actionClosed 1001)
           run.1 run.2 _ _ eq_refl (surjective_pairing run) Hin).
Defined.

(** X14: Every call to the source-control platform is for the repository of the
    event.  The deployment records are listed and created under one and the
    same environment, the identity of the pull request, so that a record
    created on one event is found on the later events of the pull request; a
    record is created for the head branch, without auto-merge and without
    required contexts; the app spec is read from [.do/app.yaml] at the head
    branch. *)
Theorem Handle_keys_its_requests W D fuel payload event out t :
  unmarshalEvent D payload = Value event ->
  Handle W D fuel payload [] = (out, t) ->
  let owner := RepoOwner event in
  let repo := RepoName event in
  let identity := appName owner repo (Number event) in
  (forall o r environment answer,
      GhListDeployments o r environment answer ∈ t ->
      o = owner /\ r = repo /\ environment = identity) /\
  (forall o r req answer,
      GhCreateDeployment o r req answer ∈ t ->
      o = owner /\ r = repo /\ Environment req = identity /\
      Ref req = HeadRef event /\ AutoMerge req = false /\
      RequiredContexts req = []) /\
  (forall o r path ref answer,
      GhGetContents o r path ref answer ∈ t ->
      o = owner /\ r = repo /\ path = canonicalAppSpecLocation /\
      ref = HeadRef event) /\
  (forall o r record req answer,
      GhCreateDeploymentStatus o r record req answer ∈ t ->
      o = owner /\ r = repo).
Proof.
  intros Hparse Hrun. cbv zeta.
  run_handle Hrun; repeat split; intros; split_membership; not_a_wait_event;
    try match goal with
        | Hw : propagateRun _ _ _ _ _ ?tw _, H : _ ∈ ?tw |- _ =>
            apply (propagateRun_statuses _ _ _ _ _ _ _ Hw) in H;
            destruct H as (-> & -> & _)
        end;
    repeat split; reflexivity.
Qed.

Lemma Handle_keys_its_requests_witness :
  let W := exampleWorld [exampleRecord] DeploymentPhase_Active None
             exampleInitial neverDone in
  let event := exampleEvent actionSynchronize 1001 in
  let run := Handle W (exampleDecoders event) 5 "payload" [] in
  let listed :=
    GhListDeployments "acme" "widgets" "acme-widgets-42"
      (Value [Some {| GhID := 3; Payload := "app-1" |}]) in
  listed ∈ run.2 /\
  "acme" = RepoOwner event /\ "widgets" = RepoName event /\
  "acme-widgets-42" = appName (RepoOwner event) (RepoName event) (Number event).
Proof.
  cbv zeta.
  set (run := Handle _ _ _ _ _).
  assert (Hin : GhListDeployments "acme" "widgets" "acme-widgets-42"
                  (Value [Some {| GhID := 3; Payload := "app-1" |}]) ∈ run.2).
  { vm_compute. right. left. }
  split; [exact Hin|].
  exact (proj1 (Handle_keys_its_requests
                  (exampleWorld [exampleRecord] DeploymentPhase_Active None
                     exampleInitial neverDone)
                  (exampleDecoders (exampleEvent actionSynchronize 1001)) 5
                  "payload" (exampleEvent actionSynchronize 1001) run.1 run.2
                  eq_refl (surjective_pairing run)) _ _ _ _ Hin).
Defined.

(** X15: Every status update asks for the older deployments to be made inactive
    and is of one of three kinds: [inactive] without a URL, on a [closed]
    event only; [error] without a URL; [success] with an environment URL that
    is not empty. *)
Theorem Handle_status_updates_are_well_formed W D fuel payload event out t
    owner repo record req err :
  unmarshalEvent D payload = Value event ->
  Handle W D fuel payload [] = (out, t) ->
  GhCreateDeploymentStatus owner repo record req err ∈ t ->
  AutoInactive req = Some true /\
  ((State req = Some deploymentStateInactive /\ EnvironmentURL req = None /\
    Action event = actionClosed) \/
   (State req = Some deploymentStateError /\ EnvironmentURL req = None) \/
   (State req = Some deploymentStateSuccess /\
    exists url, EnvironmentURL req = Some url /\ url <> EmptyString)).
Proof.
  intros Hparse Hrun Hin.
  run_handle Hrun; split_membership;
    try match goal with
        | Hw : propagateRun _ _ _ _ _ ?tw _, H : _ ∈ ?tw |- _ =>
            apply (propagateRun_statuses _ _ _ _ _ _ _ Hw) in H;
            destruct H as (_ & _ & _ & [->|(url & Hurl & ->)])
        end;
    (split; [done|]).
  all: try (left; repeat split; by apply String.eqb_eq).
  all: try (right; left; by split).
  all: right; right; split; [done|]; by exists url.
Qed.

Lemma Handle_status_updates_are_well_formed_witness :
  let W := exampleWorld [exampleRecord] DeploymentPhase_Active None
             exampleInitial neverDone in
  let event := exampleEvent actionClosed 1001 in
  let run := Handle W (exampleDecoders event) 5 "payload" [] in
  let req := {| State := Some deploymentStateInactive;
                EnvironmentURL := None;
                AutoInactive := Some true |} in
  GhCreateDeploymentStatus "acme" "widgets" 3 req None ∈ run.2 /\
  AutoInactive req = Some true /\
  ((State req = Some deploymentStateInactive /\ EnvironmentURL req = None /\
    Action event = actionClosed) \/
   (State req = Some deploymentStateError /\ EnvironmentURL req = None) \/
   (State req = Some deploymentStateSuccess /\
    exists url, EnvironmentURL req = Some url /\ url <> EmptyString)).
Proof.
  cbv zeta.
  set (run := Handle _ _ _ _ _).
  assert (Hin : GhCreateDeploymentStatus "acme" "widgets" 3
                  {| State := Some deploymentStateInactive;
                     EnvironmentURL := None;
                     AutoInactive := Some true |} None ∈ run.2).
  { vm_compute. do 4 right. left. }
  split; [exact Hin|].
  exact (Handle_status_updates_are_well_formed
           (exampleWorld [exampleRecord] DeploymentPhase_Active None
              exampleInitial neverDone)
           (exampleDecoders (exampleEvent actionClosed 1001)) 5 "payload"
           (exampleEvent actionClosed 1001) run.1 run.2 _ _ _ _ _
           eq_refl (surjective_pairing run) Hin).
Defined.

(** X16: The app the handler creates is made from the file the source-control
    platform holds at [.do/app.yaml] on the head branch: its content is
    decoded, parsed and scoped to the pull request, and the result is the
    spec of the creation request. *)
Theorem Handle_creates_app_from_scoped_spec W D fuel payload event out t
    spec answer :
  unmarshalEvent D payload = Value event ->
  Handle W D fuel payload [] = (out, t) ->
  DoAppsCreate spec answer ∈ t ->
  exists file content parsed,
    GhGetContents (RepoOwner event) (RepoName event) canonicalAppSpecLocation
      (HeadRef event) (Value (Some file)) ∈ t /\
    GetContent D file = Value content /\
    unmarshalSpec D content = Value parsed /\
    spec = prScopedSpec (RepoOwner event) (RepoName event) (HeadRef event)
             (appName (RepoOwner event) (RepoName event) (Number event))
             parsed.
Proof.
  intros Hparse Hrun Hin.
  run_handle Hrun; split_membership; not_a_wait_event.
  all: eexists _, _, _; split; [right; left|]; by repeat split.
Qed.

Lemma Handle_creates_app_from_scoped_spec_witness :
  let W := exampleWorld [] DeploymentPhase_Active None exampleInitial neverDone in
  let event := exampleEvent actionOpened 1001 in
  let D := exampleDecoders event in
  let run := Handle W D 5 "payload" [] in
  let spec := prScopedSpec "acme" "widgets" "feature" "acme-widgets-42"
                exampleSpec in
  let answer := Value (Some {| ID := "app-1"; LiveURL := EmptyString |}) in
  DoAppsCreate spec answer ∈ run.2 /\
  exists file content parsed,
    GhGetContents (RepoOwner event) (RepoName event) canonicalAppSpecLocation
      (HeadRef event) (Value (Some file)) ∈ run.2 /\
    GetContent D file = Value content /\
    unmarshalSpec D content = Value parsed /\
    spec = prScopedSpec (RepoOwner event) (RepoName event) (HeadRef event)
             (appName (RepoOwner event) (RepoName event) (Number event))
             parsed.
Proof.
  cbv zeta.
  set (run := Handle _ _ _ _ _).
  assert (Hin : DoAppsCreate
                  (prScopedSpec "acme" "widgets" "feature" "acme-widgets-42"
                     exampleSpec)
                  (Value (Some {| ID := "app-1"; LiveURL := EmptyString |}))
                ∈ run.2).
  { vm_compute. do 3 right. left. }
  split; [exact Hin|].
  exact (Handle_creates_app_from_scoped_spec
           (exampleWorld [] DeploymentPhase_Active None exampleInitial neverDone)
           (exampleDecoders (exampleEvent actionOpened 1001)) 5 "payload"
           (exampleEvent actionOpened 1001) run.1 run.2 _ _
           eq_refl (surjective_pairing run) Hin).
Defined.

(** X17: The deployment whose phase the handler polls is, on a [synchronize]
    event, the one the platform answered the deployment request with, and
    otherwise the first of the deployments the platform lists for the new
    app. *)
Theorem Handle_polls_the_deployment_it_started W D fuel payload out t
    appID deploymentID answer :
  Handle W D fuel payload [] = (out, t) ->
  DoAppsGetDeployment appID deploymentID answer ∈ t ->
  (exists d, DoAppsCreateDeployment appID (Value d) ∈ t /\
             deploymentID = GetDeploymentID d) \/
  (exists d ds, DoAppsListDeployments appID (Value (d :: ds)) ∈ t /\
                deploymentID = GetDeploymentID d).
Proof.
  intros Hrun Hin.
  run_handle Hrun; split_membership.
  all: match goal with
       | Hw : propagateRun _ _ _ _ _ ?tw _ |- _ =>
           destruct (proj1 (propagateRun_fetches _ _ _ _ _ _ _ Hw _ Hin)
                       _ _ _ eq_refl) as [-> ->]
       end.
  all: first [ left; eexists; split; [|reflexivity]; rewrite !elem_of_cons;
               by auto 10
             | right; eexists _, _; split; [|reflexivity];
               rewrite !elem_of_cons; by auto 10 ].
Qed.

Lemma Handle_polls_the_deployment_it_started_witness :
  let W := exampleWorld [exampleRecord] DeploymentPhase_Error None
             exampleInitial neverDone in
  let run := Handle W (exampleDecoders (exampleEvent actionSynchronize 1001)) 5
               "payload" [] in
  let answer := Value (Some {| DeploymentID := "dep-2";
                               Phase := DeploymentPhase_Error |}) in
  DoAppsGetDeployment "app-1" "dep-2" answer ∈ run.2 /\
  ((exists d, DoAppsCreateDeployment "app-1" (Value d) ∈ run.2 /\
              "dep-2" = GetDeploymentID d) \/
   (exists d ds, DoAppsListDeployments "app-1" (Value (d :: ds)) ∈ run.2 /\
                 "dep-2" = GetDeploymentID d)).
Proof.
  cbv zeta.
  set (run := Handle _ _ _ _ _).
  assert (Hin : DoAppsGetDeployment "app-1" "dep-2"
                  (Value (Some {| DeploymentID := "dep-2";
                                  Phase := DeploymentPhase_Error |})) ∈ run.2).
  { vm_compute. do 5 right. left. }
  split; [exact Hin|].
  exact (Handle_polls_the_deployment_it_started _ _ _ _ _ _ _ _ _
           (surjective_pairing run) Hin).
Defined.

(** X18: On a [synchronize] event the new deployment record carries the app id
    read from the payload of the first listed record, and it is created only
    after the platform accepted the request for a new deployment of that
    app. *)
Theorem Handle_synchronize_rerecords_app W D fuel payload event out t
    owner repo req answer :
  unmarshalEvent D payload = Value event ->
  Action event = actionSynchronize ->
  Handle W D fuel payload [] = (out, t) ->
  GhCreateDeployment owner repo req answer ∈ t ->
  exists record rest p d,
    GhListDeployments owner repo (Environment req) (Value (Some record :: rest))
    ∈ t /\
    unmarshalPayload D (Payload record) = Value p /\
    RequestPayload req = {| AppID := AppID p |} /\
    DoAppsCreateDeployment (AppID p) (Value d) ∈ t.
Proof.
  intros Hparse Hact Hrun Hin.
  run_handle Hrun; wrong_path Hact (@eq_refl Z 0%Z); split_membership;
    not_a_wait_event.
  all: eexists _, _, _, _; split; [right; left|];
       split; [eassumption|]; split; [reflexivity|]; rewrite !elem_of_cons;
       by auto 10.
Qed.

Lemma Handle_synchronize_rerecords_app_witness :
  let W := exampleWorld [exampleRecord] DeploymentPhase_Active None
             exampleInitial neverDone in
  let event := exampleEvent actionSynchronize 1001 in
  let D := exampleDecoders event in
  let run := Handle W D 5 "payload" [] in
  let req := {| Ref := "feature"; AutoMerge := false;
                Environment := "acme-widgets-42"; RequiredContexts := [];
                RequestPayload := {| AppID := "app-1" |} |} in
  let answer := Value (Some {| GhID := 7; Payload := "app-1" |}) in
  GhCreateDeployment "acme" "widgets" req answer ∈ run.2 /\
  exists record rest p d,
    GhListDeployments "acme" "widgets" (Environment req)
      (Value (Some record :: rest)) ∈ run.2 /\
    unmarshalPayload D (Payload record) = Value p /\
    RequestPayload req = {| AppID := AppID p |} /\
    DoAppsCreateDeployment (AppID p) (Value d) ∈ run.2.
Proof.
  cbv zeta.
  set (run := Handle _ _ _ _ _).
  assert (Hin : GhCreateDeployment "acme" "widgets"
                  {| Ref := "feature"; AutoMerge := false;
                     Environment := "acme-widgets-42"; RequiredContexts := [];
                     RequestPayload := {| AppID := "app-1" |} |}
                  (Value (Some {| GhID := 7; Payload := "app-1" |})) ∈ run.2).
  { vm_compute. do 4 right. left. }
  split; [exact Hin|].
  exact (Handle_synchronize_rerecords_app
           (exampleWorld [exampleRecord] DeploymentPhase_Active None
              exampleInitial neverDone)
           (exampleDecoders (exampleEvent actionSynchronize 1001)) 5 "payload"
           (exampleEvent actionSynchronize 1001) run.1 run.2 _ _ _ _
           eq_refl eq_refl (surjective_pairing run) Hin).
Defined.

(** The answers of the collaborators on which the handler panics: a first
    listed deployment record that is nil, a file that is nil, a created app
    that is nil, and an empty list of deployments for the new app. *)
Definition panicsOn (e : Event) : bool :=
  match e with
  | GhListDeployments _ _ _ (Value (None :: _)) => true
  | GhGetContents _ _ _ _ (Value None) => true
  | DoAppsCreate _ (Value None) => true
  | DoAppsListDeployments _ (Value []) => true
  | _ => false
  end.

(** X19: [Handle] panics on these answers and on no other: a run that ends in a
    panic ends right after such an answer, and a run that gets such an
    answer ends in a panic. *)
Theorem Handle_panics_exactly_on_nil_answers W D fuel payload out t :
  Handle W D fuel payload [] = (out, t) ->
  (out = Panicked -> exists e, last t = Some e /\ panicsOn e = true) /\
  (forall e, e ∈ t -> panicsOn e = true -> out = Panicked).
Proof.
  intros Hrun.
  run_handle Hrun;
    try match goal with
        | Hw : propagateRun _ _ _ _ _ _ Panicked |- _ =>
            by destruct (propagateRun_not_panicked _ _ _ _ _ _ _ Hw)
        end;
    (split; [intros Hp; try discriminate Hp; by eexists|]);
    intros ev Hin Hev;
    repeat (apply elem_of_cons in Hin as [->|Hin];
            [simpl in Hev; try discriminate Hev; done|]);
    try (by apply elem_of_nil in Hin).
  all: match goal with
       | Hw : propagateRun _ _ _ _ _ ?tw _, H : _ ∈ ?tw |- _ =>
           apply propagateRun_events in Hw; rewrite Forall_forall in Hw;
           apply Hw in H; destruct ev; try discriminate H; discriminate Hev
       end.
Qed.

Lemma Handle_panics_exactly_on_nil_answers_witness :
  let W := exampleWorld [None] DeploymentPhase_Active None exampleInitial
             neverDone in
  let run := Handle W (exampleDecoders (exampleEvent actionClosed 1001)) 5
               "payload" [] in
  (run.1 = Panicked -> exists e, last run.2 = Some e /\ panicsOn e = true) /\
  (forall e, e ∈ run.2 -> panicsOn e = true -> run.1 = Panicked).
Proof.
  cbv zeta.
  exact (Handle_panics_exactly_on_nil_answers _ _ _ _ _ _ (surjective_pairing _)).
Defined.
